(** * Car rentals server: listings, notifications and vendor analytics

    A shallow embedding of the listing model (src/models/Car.ts), the
    notification services (src/services/notificationService.ts,
    src/services/vendorNotificationService.ts), the listing routes
    (src/routes/upload.ts) and the vendor routes (src/routes/auth.ts).

    Modelling conventions:
    - the [cars] collection is a list of documents in natural order
      (aggregation pipelines and [$limit] depend on it); [findById] returns
      the first document with the given id;
    - JavaScript numbers used as prices and ratios are rationals [Q], the
      exact values of the binary64 numbers the program holds; a computation
      whose rounding shows in the output is carried out in binary64
      ([spec_float], see [dbl_of_Q]); counters and timestamps
      (milliseconds) are [Z];
    - a socket.io emission is an [Event] on a [Topic]; a service or a route
      returns the list of events it emits, in emission order;
    - identifiers (ObjectIds) are their hexadecimal strings, compared by
      equality in the queries Mongoose casts to the schema ([find],
      [findById], [updateMany]); aggregation stages are not cast (see
      [aggSellerMatch]). *)

From Stdlib Require Import ZArith QArith Qround Qabs String Ascii List Bool Lia Lqa Sorted
  SpecFloat.
Import ListNotations.
Open Scope string_scope.
Open Scope Z_scope.

(** ** Data model (src/models/Car.ts) *)

Record Location := mkLocation { city : string; state : string }.

(** A JavaScript number: finite, an infinity, or NaN. *)
Inductive JSNum := JFin (q : Q) | JInf (negative : bool) | JNaN.

(** A value stored at a path that the path's typed field below cannot
    hold: [null], or a price that is not a finite number. *)
Inductive Raw := RNull | RNumber (x : JSNum).

(** The fields of the car schema that the routes below read or write.
    [status] is a String with enum [active|sold|pending|inactive];
    [updatedAt] is the field maintained by the schema option
    [timestamps: true]; [lastUpdated] by the [pre('save')] hook.
    [rawPaths] lists the paths of the document holding a [Raw] value; only
    the bulk update writes one, since [updateMany] runs no validator, and
    the typed field of such a path then keeps its previous content, which
    is not the document's. The readers modelled below read the typed
    fields. *)
Record Car := mkCar {
  car_id : string;
  make : string;
  model : string;
  year : Z;
  price : Q;
  location : Location;
  seller : string;
  status : string;
  views : Z;
  inquiries : Z;
  featured : bool;
  urgent : bool;
  listedAt : Z;
  lastUpdated : Z;
  updatedAt : Z;
  soldAt : option Z;
  priceHistory : list Q;
  rawPaths : list (string * Raw)
}.

Definition DB := list Car.

Definition findById (db : DB) (k : string) : option Car :=
  find (fun c => String.eqb (car_id c) k) db.

(** [findByIdAndUpdate]: the first document with id [k] is replaced by
    [f] applied to it. *)
Fixpoint updateById (k : string) (f : Car -> Car) (db : DB) : DB :=
  match db with
  | [] => []
  | c :: rest =>
      if String.eqb (car_id c) k then f c :: rest
      else c :: updateById k f rest
  end.

Definition qltb (x y : Q) : bool := negb (Qle_bool y x).

(** ** Number formatting *)

Definition digit_char (d : Z) : ascii :=
  ascii_of_nat (48 + Z.to_nat d).

Fixpoint z_digits (fuel : nat) (n : Z) (acc : string) : string :=
  match fuel with
  | O => acc
  | S f =>
      let acc' := String (digit_char (n mod 10)) acc in
      if n <? 10 then acc' else z_digits f (n / 10) acc'
  end.

(** Decimal rendering of a non-negative integer ([Z.to_nat] bits are
    enough fuel: there are fewer decimal digits than binary ones). *)
Definition nat_string (n : Z) : string :=
  z_digits (S (Pos.size_nat (Z.to_pos (n + 1)))) n "".

(** [Number.prototype.toFixed(1)] of a finite number whose exact value is
    [x], below 10^21 in magnitude: the integer [n] for which [n / 10 - x] is
    closest to zero (the larger one on a tie) printed with one decimal, the
    sign printed separately. JavaScript applies it to the exact value of a
    binary64 number; [dblToFixed1] below does so for a value computed in
    binary64. *)
Definition toFixed1_abs (x : Q) : string :=
  let n := Qfloor (x * 10 + (1 # 2))%Q in
  (nat_string (n / 10) ++ "." ++ String (digit_char (n mod 10)) "")%string.

Definition toFixed1 (x : Q) : string :=
  if qltb x 0 then ("-" ++ toFixed1_abs (- x))%string else toFixed1_abs x.

(** *** Binary64 numbers *)

(** A JavaScript number is an IEEE-754 binary64 number: a [spec_float] of
    precision 53 and maximal exponent 1024, whose operations round to
    nearest, ties to even. *)
Definition dadd (x y : spec_float) : spec_float := SFadd 53 1024 x y.
Definition dsub (x y : spec_float) : spec_float := SFsub 53 1024 x y.
Definition dmul (x y : spec_float) : spec_float := SFmul 53 1024 x y.
Definition ddiv (x y : spec_float) : spec_float := SFdiv 53 1024 x y.

(** The binary64 number nearest to [q] (ties to even): the quotient of
    the integers [Qnum q] and [Qden q], each given to the division as a
    float of exponent 0, which rounds the exact quotient once. For a [q]
    that a binary64 number has as its value, that number. *)
Definition dbl_of_Q (q : Q) : spec_float :=
  match Qnum q with
  | Z0 => S754_zero false
  | Zpos n => ddiv (S754_finite false n 0) (S754_finite false (Qden q) 0)
  | Zneg n => ddiv (S754_finite true n 0) (S754_finite false (Qden q) 0)
  end.

Definition dbl_of_Z (z : Z) : spec_float := dbl_of_Q (inject_Z z).

(** The exact value of a finite binary64 number (0 for a zero and for the
    others). *)
Definition dbl_value (x : spec_float) : Q :=
  match x with
  | S754_finite s m e =>
      let v := if 0 <=? e then inject_Z (Zpos m * 2 ^ e)
               else Qred (Zpos m # Z.to_pos (2 ^ (- e))) in
      if s then (- v)%Q else v
  | _ => 0%Q
  end.

(** A binary64 number as a [JSNum]. *)
Definition jsnum_of_dbl (x : spec_float) : JSNum :=
  match x with
  | S754_zero _ => JFin 0
  | S754_infinity s => JInf s
  | S754_nan => JNaN
  | S754_finite _ _ _ => JFin (dbl_value x)
  end.

(** The number a numeral denoting [q] is read as, by [Number], [parseFloat]
    or [JSON.parse]: the nearest binary64 number, an infinity beyond the
    range. *)
Definition roundQ (q : Q) : JSNum := jsnum_of_dbl (dbl_of_Q q).

(** [x.toFixed(1)] for a binary64 [x]: NaN and the infinities by name
    (their [String(x)]), the others by [toFixed1] on their exact value. *)
Definition dblToFixed1 (x : spec_float) : string :=
  match x with
  | S754_nan => "NaN"
  | S754_infinity s => if s then "-Infinity" else "Infinity"
  | _ => toFixed1 (dbl_value x)
  end.

Definition digit_val (a : ascii) : option Z :=
  let n := Z.of_nat (nat_of_ascii a) in
  if (48 <=? n) && (n <=? 57) then Some (n - 48) else None.

(** Reads the longest prefix of decimal digits: the value accumulated onto
    [v], the digit count accumulated onto [k], and the rest. *)
Fixpoint read_digits (s : string) (v : Z) (k : nat) : Z * nat * string :=
  match s with
  | EmptyString => (v, k, EmptyString)
  | String a s' =>
      match digit_val a with
      | Some d => read_digits s' (10 * v + d) (S k)
      | None => (v, k, s)
      end
  end.

(** *** JavaScript number conversions *)

(** The white space [Number(string)] trims, on ASCII: tab, the line
    terminators LF and CR, vertical tab, form feed and space (the
    non-ASCII white space of JavaScript is not modelled). *)
Definition is_js_space (a : ascii) : bool :=
  let n := nat_of_ascii a in
  ((Nat.leb 9 n && Nat.leb n 13) || Nat.eqb n 32)%bool.

Fixpoint trim_start (s : string) : string :=
  match s with
  | String a r => if is_js_space a then trim_start r else s
  | EmptyString => EmptyString
  end.

Fixpoint trim_end (s : string) : string :=
  match s with
  | EmptyString => EmptyString
  | String a r =>
      let r' := trim_end r in
      if is_js_space a && String.eqb r' EmptyString then EmptyString else String a r'
  end.

(** A digit in the given base: [0-9], then [a-z] or [A-Z] from ten. *)
Definition radix_digit (base : Z) (a : ascii) : option Z :=
  let n := Z.of_nat (nat_of_ascii a) in
  let d := if (48 <=? n) && (n <=? 57) then n - 48
           else if (97 <=? n) && (n <=? 122) then n - 87
           else if (65 <=? n) && (n <=? 90) then n - 55
           else base in
  if d <? base then Some d else None.

Fixpoint read_radix (base : Z) (s : string) (v : Z) (k : nat) : Z * nat * string :=
  match s with
  | EmptyString => (v, k, EmptyString)
  | String a s' =>
      match radix_digit base a with
      | Some d => read_radix base s' (base * v + d) (S k)
      | None => (v, k, s)
      end
  end.

(** The prefixes [0x], [0o] and [0b] (either case) and their bases. *)
Definition radix_prefix (s : string) : option (Z * string) :=
  match s with
  | String a (String b r) =>
      if Ascii.eqb a "0"%char then
        if Ascii.eqb b "x"%char || Ascii.eqb b "X"%char then Some (16, r)
        else if Ascii.eqb b "o"%char || Ascii.eqb b "O"%char then Some (8, r)
        else if Ascii.eqb b "b"%char || Ascii.eqb b "B"%char then Some (2, r)
        else None
      else None
  | _ => None
  end.

Definition sign_prefix (s : string) : bool * string :=
  match s with
  | String a r =>
      if Ascii.eqb a "-"%char then (true, r)
      else if Ascii.eqb a "+"%char then (false, r)
      else (false, s)
  | EmptyString => (false, s)
  end.

(** An optional exponent: [e] or [E], an optional sign and at least one
    digit; [None] when the marker has no digits. *)
Definition read_exponent (s : string) : option (Z * string) :=
  match s with
  | String a r =>
      if Ascii.eqb a "e"%char || Ascii.eqb a "E"%char then
        let '(neg, r') := sign_prefix r in
        let '(e, k, rest) := read_digits r' 0 0 in
        if Nat.eqb k 0 then None else Some (if neg then - e else e, rest)
      else Some (0, s)
  | EmptyString => Some (0, s)
  end.

(** An unsigned decimal literal making up the whole string: digits, an
    optional point and digits, at least one digit in all, and an optional
    exponent. *)
Definition decimal_literal (s : string) : option Q :=
  let '(i, ki, r1) := read_digits s 0 0 in
  let '(f, kf, r2) :=
    match r1 with
    | String a r => if Ascii.eqb a "."%char then read_digits r 0 0 else (0, O, r1)
    | EmptyString => (0, O, r1)
    end in
  if (Nat.eqb ki 0 && Nat.eqb kf 0)%bool then None
  else
    match read_exponent r2 with
    | Some (e, EmptyString) =>
        Some (Qred ((inject_Z i + inject_Z f / inject_Z (10 ^ Z.of_nat kf)) * 10 ^ e))%Q
    | _ => None
    end.

Definition signed_double (neg : bool) (q : Q) : JSNum :=
  roundQ (if neg then - q else q)%Q.

(** [Number(s)] on a string: the trimmed string is empty (0), a [0x], [0o]
    or [0b] integer, an optionally signed [Infinity], or an optionally
    signed decimal literal; anything else is NaN. The value is the
    binary64 number nearest to the one the literal denotes ([roundQ]). *)
Definition jsNumber (s : string) : JSNum :=
  let t := trim_end (trim_start s) in
  if String.eqb t EmptyString then JFin 0
  else
    match radix_prefix t with
    | Some (base, r) =>
        let '(v, k, rest) := read_radix base r 0 0 in
        if negb (Nat.eqb k 0) && String.eqb rest EmptyString
        then signed_double false (inject_Z v)
        else JNaN
    | None =>
        let '(neg, u) := sign_prefix t in
        if String.eqb u "Infinity" then JInf neg
        else
          match decimal_literal u with
          | Some q => signed_double neg q
          | None => JNaN
          end
    end.

(** The number of factors [p] of [n], and what is left. *)
Fixpoint factor_count (fuel : nat) (p n : Z) : nat * Z :=
  match fuel with
  | O => (O, n)
  | S f =>
      if (n mod p =? 0) && (0 <? n) then
        let '(c, m) := factor_count f p (n / p) in (S c, m)
      else (O, n)
  end.

Fixpoint strip_zeros (fuel : nat) (m t : Z) : Z * Z :=
  match fuel with
  | O => (m, t)
  | S f => if (m mod 10 =? 0) && (0 <? m) then strip_zeros f (m / 10) (t - 1) else (m, t)
  end.

(** For a nonzero [q] with a finite decimal expansion: the integer [m]
    without trailing zeros and the [t] with [|q| = m / 10^t]. *)
Definition decimal_digits (q : Q) : Z * Z :=
  let r := Qred q in
  let b := Zpos (Qden r) in
  let fuel := Pos.size_nat (Qden r) in
  let '(i, b1) := factor_count fuel 2 b in
  let '(j, _) := factor_count fuel 5 b1 in
  let t := Z.of_nat (Nat.max i j) in
  let m := Z.abs (Qnum r) * 10 ^ t / b in
  strip_zeros (Pos.size_nat (Z.to_pos m)) m t.

Fixpoint zeros (n : nat) : string :=
  match n with
  | O => EmptyString
  | S k => String "0"%char (zeros k)
  end.

(** [Number.prototype.toString()] (ECMAScript's Number::toString in base
    10) of the number a numeral denoting [q] is read as ([roundQ q]), for a
    numeral of at most 15 significant digits whose value is 0 or in the
    normal binary64 range: the fewest digits reading back as that number
    are then the numeral's own, [D], [k] of them, without trailing zeros.
    With the decimal point [n] places after the first of them: plain
    notation for [-6 < n <= 21], exponential notation otherwise. Longer
    numerals are not modelled. *)
Definition numberString (q : Q) : string :=
  if Qeq_bool q 0 then "0"
  else
    let sgn := if qltb q 0 then "-" else EmptyString in
    let '(m, t) := decimal_digits q in
    let D := nat_string m in
    let k := Z.of_nat (String.length D) in
    let n := k - t in
    (sgn ++
     (if ((k <=? n) && (n <=? 21))%Z then D ++ zeros (Z.to_nat (n - k))
      else if ((0 <? n) && (n <=? 21))%Z then
        substring 0 (Z.to_nat n) D ++ "." ++ substring (Z.to_nat n) (Z.to_nat (k - n)) D
      else if ((-6 <? n) && (n <=? 0))%Z then "0." ++ zeros (Z.to_nat (- n)) ++ D
      else
        let e := n - 1 in
        (if (k =? 1)%Z then D else substring 0 1 D ++ "." ++ substring 1 (Z.to_nat (k - 1)) D)
        ++ "e" ++ (if (e <? 0)%Z then "-" else "+") ++ nat_string (Z.abs e)))%string.

(** ** Real-time events (src/socket.ts) *)

(** The rooms of the emit helpers: [emitToLocation] (room
    [city_state], lower-cased), [emitToMakeInterests] (room [make_<make>]),
    [emitToUser] (room [user_<id>]) and the global broadcast [io.emit]. *)
Inductive Topic :=
| TLocation (city state : string)
| TMake (make : string)
| TUser (uid : string)
| TAll.

Inductive Priority := PLow | PMedium | PHigh.

(** A JSON value of a request body; a number is given by the value of its
    numeral, which [JSON.parse] reads as [roundQ q]. *)
Inductive Value :=
| VStr (s : string)
| VNum (q : Q)
| VBool (b : bool)
| VNull.

Inductive Payload :=
| PPriceAlert (car : Car) (oldPrice newPrice : Q) (discount : string)
| PNewInquiry (carId : string) (car : Car) (inquirer : string)
| PMilestone (carId : string) (car : Car) (milestone message : string)
    (priority : Priority)
| PInventoryUpdate (updatedCount : nat) (updates : list (string * Value)).

Record Event := mkEvent { ev_topic : Topic; ev_name : string; ev_data : Payload }.

Definition emitToLocation (city state name : string) (p : Payload) : Event :=
  mkEvent (TLocation city state) name p.
Definition emitToMakeInterests (make name : string) (p : Payload) : Event :=
  mkEvent (TMake make) name p.
Definition emitToUser (uid name : string) (p : Payload) : Event :=
  mkEvent (TUser uid) name p.

(** ** Notification services *)

(** [NotificationService.notifyPriceChange]. *)
Definition notifyPriceChange (db : DB) (carId : string) (oldPrice newPrice : Q)
  : list Event :=
  match findById db carId with
  | None => []
  | Some car =>
      let priceChange := (((newPrice - oldPrice) / oldPrice) * 100)%Q in
      if qltb priceChange (-5)%Q then
        [ emitToLocation (city (location car)) (state (location car)) "priceAlert"
            (PPriceAlert car oldPrice newPrice (toFixed1 (Qabs priceChange)));
          emitToMakeInterests (make car) "priceAlert"
            (PPriceAlert car oldPrice newPrice (toFixed1 (Qabs priceChange))) ]
      else []
  end.

(** [NotificationService.notifyInquiry]: to the seller of the listing. *)
Definition notifyInquiry (db : DB) (carId inquirerName : string) : list Event :=
  match findById db carId with
  | None => []
  | Some car =>
      [ emitToUser (seller car) "newInquiry" (PNewInquiry carId car inquirerName) ]
  end.

(** [VendorNotificationService.notifyNewInquiry]. *)
Definition notifyNewInquiry (db : DB) (vendorId carId inquirerName : string)
  : list Event :=
  match findById db carId with
  | None => []
  | Some car =>
      [ emitToUser vendorId "newInquiry" (PNewInquiry carId car inquirerName) ]
  end.

(** [VendorNotificationService.notifyPerformanceMilestone]; the message
    texts are abbreviated to the milestone kind. *)
Definition notifyPerformanceMilestone (db : DB) (vendorId carId milestone : string)
  : list Event :=
  match findById db carId with
  | None => []
  | Some car =>
      let '(message, priority) :=
        if String.eqb milestone "high_views" then ("views"%string, PMedium)
        else if String.eqb milestone "multiple_inquiries" then ("inquiries"%string, PHigh)
        else if String.eqb milestone "trending" then ("trending"%string, PMedium)
        else (""%string, PLow) in
      [ emitToUser vendorId "performanceMilestone"
          (PMilestone carId car milestone message priority) ]
  end.

(** ** Listing routes (src/routes/upload.ts) *)

Inductive Response :=
| Ok200
| Created201
| BadRequest400 (message : string)
| Forbidden403
| NotFound404
| ServerError500.

(** The price-tracking part of [PUT /api/cars/:id]: when the body carries a
    truthy [price] different from the stored one, [notifyPriceChange] is
    called with the stored and the new price. *)
Definition updateCarPriceEvents (db : DB) (carId : string) (newPrice : option Q)
  : list Event :=
  match findById db carId with
  | None => []
  | Some car =>
      match newPrice with
      | Some p =>
          if negb (Qeq_bool p 0) && negb (Qeq_bool p (price car))
          then notifyPriceChange db (car_id car) (price car) p
          else []
      | None => []
      end
  end.

(** [{ $inc: { inquiries: 1 } }] through [findByIdAndUpdate]; the
    schema's [timestamps] option also sets [updatedAt]. *)
Definition incInquiries (now : Z) (c : Car) : Car :=
  {| car_id := car_id c; make := make c; model := model c; year := year c;
     price := price c; location := location c; seller := seller c;
     status := status c; views := views c; inquiries := inquiries c + 1;
     featured := featured c; urgent := urgent c; listedAt := listedAt c;
     lastUpdated := lastUpdated c; updatedAt := now; soldAt := soldAt c;
     priceHistory := priceHistory c;
     rawPaths := rawPaths c |}.

(** [POST /api/cars/:id/inquiry]: increment, notify the seller twice, then
    re-read the listing and send the milestone when the count is 5. *)
Definition inquiryRoute (db : DB) (now : Z) (carId inquirerName : string)
  : Response * DB * list Event :=
  match findById db carId with
  | None => (NotFound404, db, [])
  | Some car =>
      let db1 := updateById carId (incInquiries now) db in
      let e1 := notifyInquiry db1 (car_id car) inquirerName in
      let e2 := notifyNewInquiry db1 (seller car) (car_id car) inquirerName in
      let e3 := match findById db1 carId with
                | Some updatedCar =>
                    if Z.eqb (inquiries updatedCar) 5
                    then notifyPerformanceMilestone db1 (seller car) (car_id car)
                           "multiple_inquiries"
                    else []
                | None => []
                end in
      (Ok200, db1, (e1 ++ e2 ++ e3)%list)
  end.

(** Record updates used by the routes. *)
Definition with_status (s : string) (t : Z) (c : Car) : Car :=
  {| car_id := car_id c; make := make c; model := model c; year := year c;
     price := price c; location := location c; seller := seller c; status := s;
     views := views c; inquiries := inquiries c; featured := featured c;
     urgent := urgent c; listedAt := listedAt c; lastUpdated := t;
     updatedAt := t; soldAt := soldAt c; priceHistory := priceHistory c;
     rawPaths := rawPaths c |}.

(** A stored listing with the schema defaults ([status] active, counters
    0, no [soldAt]) and one price-history entry; the other fields are not
    modelled. *)
Definition newCar (carId userId make_ model_ : string) (year_ : Z) (price_ : Q)
  (loc : Location) (now : Z) : Car :=
  {| car_id := carId; make := make_; model := model_; year := year_;
     price := price_; location := loc; seller := userId; status := "active";
     views := 0; inquiries := 0; featured := false; urgent := false;
     listedAt := now; lastUpdated := now; updatedAt := now; soldAt := None;
     priceHistory := [price_]; rawPaths := [] |}.

(** [POST /api/cars]: without uploaded files the handler answers 400.
    Otherwise it never reaches a stored document: [condition.toLowerCase()]
    throws a TypeError when the form has no [condition], and in every case
    [newCar.save()] fails validation, since the schema's required
    [vehicleDetails.exteriorColor] is never set (the handler puts
    [exteriorColor] at the top level, which strict mode drops) and the
    image URLs are strings where the schema expects image subdocuments. The
    [catch] answers 500 and the collection is unchanged. *)
Definition createCarRoute (db : DB) (images : list string) : Response * DB :=
  match images with
  | [] => (BadRequest400 "At least one image is required", db)
  | _ => (ServerError500, db)
  end.

Definition validStatuses : list string := ["active"; "inactive"; "sold"; "pending"].

(** [PATCH /api/cars/:id/status]: [car.status = status; await car.save()];
    the save hook and the timestamps refresh [lastUpdated] and [updatedAt]. *)
Definition patchStatusRoute (db : DB) (now : Z) (carId userId st : string)
  : Response * DB :=
  match findById db carId with
  | None => (NotFound404, db)
  | Some car =>
      if negb (String.eqb (seller car) userId) then (Forbidden403, db)
      else if negb (existsb (String.eqb st) validStatuses)
      then (BadRequest400 "Invalid status", db)
      else (Ok200, updateById carId (with_status st now) db)
  end.

(** ** Vendor routes (src/routes/auth.ts) *)

(** *** Leads ([GET /api/vendors/leads]) *)

Definition msPerDay : Z := 1000 * 60 * 60 * 24.

(** [Math.floor((Date.now() - listedAt) / msPerDay)] on millisecond
    timestamps. *)
Definition daysListed (now listedAt_ : Z) : Z := (now - listedAt_) / msPerDay.

Definition urgencyScore (d : Z) : string :=
  if d >? 30 then "high" else if d >? 14 then "medium" else "low".

Definition inquiryRate (c : Car) : Q :=
  if views c >? 0 then (inject_Z (inquiries c) / inject_Z (views c) * 100)%Q
  else 0%Q.

(** [Math.round(x)] is [floor(x + 0.5)]. *)
Definition mathRound (x : Q) : Z := Qfloor (x + (1 # 2))%Q.

Record Lead := mkLead {
  lead_car : Car; leadScore : Q; urgency : string; lead_daysListed : Z }.

Definition leadOf (now : Z) (c : Car) : Lead :=
  let d := daysListed now (listedAt c) in
  mkLead c (inject_Z (mathRound (inquiryRate c * 10)) / 10)%Q (urgencyScore d) d.

Definition leadsWithScores (now : Z) (cars : list Car) : list Lead :=
  map (leadOf now) cars.

(** *** Bulk update ([POST /api/vendors/bulk-update]) *)

Definition validUpdates : list string := ["status"; "featured"; "urgent"; "price"].

(** The [Object.keys(updates).forEach] loop copying whitelisted keys. *)
Definition whitelist (updates : list (string * Value)) : list (string * Value) :=
  filter (fun kv => existsb (String.eqb (fst kv)) validUpdates) updates.

(** Mongoose's casts of a [$set] value to the schema type of its path
    ([lib/cast/boolean.js], [number.js], [string.js]): [None] is the
    CastError that fails the whole query, [Some None] the [null] that is
    stored as such. *)
Definition castBoolean (v : Value) : option (option bool) :=
  match v with
  | VBool b => Some (Some b)
  | VStr s =>
      if existsb (String.eqb s) ["true"; "1"; "yes"] then Some (Some true)
      else if existsb (String.eqb s) ["false"; "0"; "no"] then Some (Some false)
      else None
  | VNum q =>
      match roundQ q with
      | JFin x =>
          if Qeq_bool x 1 then Some (Some true)
          else if Qeq_bool x 0 then Some (Some false)
          else None
      | _ => None
      end
  | VNull => Some None
  end.

(** [castNumber]: [''] gives [null]; strings and booleans go through
    [Number(val)], and NaN fails the [assert]. *)
Definition castNumber (v : Value) : option (option JSNum) :=
  match v with
  | VNull => Some None
  | VStr s =>
      if String.eqb s "" then Some None
      else
        match jsNumber s with
        | JNaN => None
        | x => Some (Some x)
        end
  | VBool b => Some (Some (JFin (if b then 1 else 0)))
  | VNum q => Some (Some (roundQ q))
  end.

(** [castString]: [value.toString()] for numbers and booleans. *)
Definition castString (v : Value) : option (option string) :=
  match v with
  | VNull => Some None
  | VStr s => Some (Some s)
  | VNum q =>
      Some (Some (match roundQ q with
                  | JInf neg => if neg then "-Infinity" else "Infinity"
                  | _ => numberString q
                  end))
  | VBool b => Some (Some (if b then "true" else "false"))
  end.

(** The cast [$set] of one path. The whitelisted paths are the only ones
    the bulk update sets; the [$set] of another path is not modelled. *)
Inductive Setter :=
| SetStatus (s : option string)
| SetFeatured (b : option bool)
| SetUrgent (b : option bool)
| SetPrice (x : option JSNum)
| SetUnmodelled.

Definition castSet (kv : string * Value) : option Setter :=
  match fst kv with
  | "status" => option_map SetStatus (castString (snd kv))
  | "featured" => option_map SetFeatured (castBoolean (snd kv))
  | "urgent" => option_map SetUrgent (castBoolean (snd kv))
  | "price" => option_map SetPrice (castNumber (snd kv))
  | _ => Some SetUnmodelled
  end.

Definition cast_field (kv : string * Value) : bool :=
  match castSet kv with
  | Some _ => true
  | None => false
  end.

(** The [Raw] entries of a document: [clearRaw] when a typed value is
    stored at path [k], [setRaw] when a [Raw] one is. *)
Definition clearRaw (k : string) (l : list (string * Raw)) : list (string * Raw) :=
  filter (fun p => negb (String.eqb (fst p) k)) l.

Definition setRaw (k : string) (r : Raw) (l : list (string * Raw)) : list (string * Raw) :=
  (clearRaw k l ++ [(k, r)])%list.

Definition set_bulk_fields (c : Car) (status_ : string) (featured_ urgent_ : bool)
  (price_ : Q) (raw : list (string * Raw)) : Car :=
  {| car_id := car_id c; make := make c; model := model c; year := year c;
     price := price_; location := location c; seller := seller c;
     status := status_; views := views c; inquiries := inquiries c;
     featured := featured_; urgent := urgent_; listedAt := listedAt c;
     lastUpdated := lastUpdated c; updatedAt := updatedAt c; soldAt := soldAt c;
     priceHistory := priceHistory c; rawPaths := raw |}.

Definition applySetter (st : Setter) (c : Car) : Car :=
  let f := featured c in
  let u := urgent c in
  match st with
  | SetStatus (Some s) => set_bulk_fields c s f u (price c) (clearRaw "status" (rawPaths c))
  | SetStatus None => set_bulk_fields c (status c) f u (price c) (setRaw "status" RNull (rawPaths c))
  | SetFeatured (Some b) =>
      set_bulk_fields c (status c) b u (price c) (clearRaw "featured" (rawPaths c))
  | SetFeatured None =>
      set_bulk_fields c (status c) f u (price c) (setRaw "featured" RNull (rawPaths c))
  | SetUrgent (Some b) =>
      set_bulk_fields c (status c) f b (price c) (clearRaw "urgent" (rawPaths c))
  | SetUrgent None =>
      set_bulk_fields c (status c) f u (price c) (setRaw "urgent" RNull (rawPaths c))
  | SetPrice (Some (JFin q)) =>
      set_bulk_fields c (status c) f u q (clearRaw "price" (rawPaths c))
  | SetPrice (Some x) =>
      set_bulk_fields c (status c) f u (price c) (setRaw "price" (RNumber x) (rawPaths c))
  | SetPrice None =>
      set_bulk_fields c (status c) f u (price c) (setRaw "price" RNull (rawPaths c))
  | SetUnmodelled => c
  end.

(** [$set] of one path on a document, the value cast as above; no
    validator runs, so an enum or a [required] is not checked. *)
Definition with_field (k : string) (v : Value) (c : Car) : Car :=
  match castSet (k, v) with
  | Some st => applySetter st c
  | None => c
  end.

(** The [Raw] value a [$set] of [v] at path [k] stores, if any. *)
Definition castRaw (k : string) (v : Value) : option Raw :=
  match castSet (k, v) with
  | Some (SetStatus None) | Some (SetFeatured None) | Some (SetUrgent None)
  | Some (SetPrice None) => Some RNull
  | Some (SetPrice (Some (JFin _))) => None
  | Some (SetPrice (Some x)) => Some (RNumber x)
  | _ => None
  end.

Definition apply_set (kvs : list (string * Value)) (c : Car) : Car :=
  fold_left (fun c' kv => with_field (fst kv) (snd kv) c') kvs c.

Definition with_updatedAt (t : Z) (c : Car) : Car :=
  {| car_id := car_id c; make := make c; model := model c; year := year c;
     price := price c; location := location c; seller := seller c;
     status := status c; views := views c; inquiries := inquiries c;
     featured := featured c; urgent := urgent c; listedAt := listedAt c;
     lastUpdated := lastUpdated c; updatedAt := t; soldAt := soldAt c;
     priceHistory := priceHistory c; rawPaths := rawPaths c |}.

Fixpoint list_Qeqb (l1 l2 : list Q) : bool :=
  match l1, l2 with
  | [], [] => true
  | x :: r1, y :: r2 => Qeq_bool x y && list_Qeqb r1 r2
  | _, _ => false
  end.

Definition opt_Zeqb (a b : option Z) : bool :=
  match a, b with
  | Some x, Some y => Z.eqb x y
  | None, None => true
  | _, _ => false
  end.

Definition jsnum_eqb (x y : JSNum) : bool :=
  match x, y with
  | JFin a, JFin b => Qeq_bool a b
  | JInf a, JInf b => Bool.eqb a b
  | JNaN, JNaN => true
  | _, _ => false
  end.

Definition raw_entry_eqb (p q : string * Raw) : bool :=
  String.eqb (fst p) (fst q)
  && match snd p, snd q with
     | RNull, RNull => true
     | RNumber x, RNumber y => jsnum_eqb x y
     | _, _ => false
     end.

(** The [Raw] entries of two documents, compared as sets. *)
Definition raws_eqb (l1 l2 : list (string * Raw)) : bool :=
  forallb (fun p => existsb (raw_entry_eqb p) l2) l1
  && forallb (fun p => existsb (raw_entry_eqb p) l1) l2.

(** Equality of stored documents, numbers compared by value. *)
Definition car_eqb (c d : Car) : bool :=
  String.eqb (car_id c) (car_id d) && String.eqb (make c) (make d)
  && String.eqb (model c) (model d) && Z.eqb (year c) (year d)
  && Qeq_bool (price c) (price d)
  && String.eqb (city (location c)) (city (location d))
  && String.eqb (state (location c)) (state (location d))
  && String.eqb (seller c) (seller d) && String.eqb (status c) (status d)
  && Z.eqb (views c) (views d) && Z.eqb (inquiries c) (inquiries d)
  && Bool.eqb (featured c) (featured d) && Bool.eqb (urgent c) (urgent d)
  && Z.eqb (listedAt c) (listedAt d) && Z.eqb (lastUpdated c) (lastUpdated d)
  && Z.eqb (updatedAt c) (updatedAt d) && opt_Zeqb (soldAt c) (soldAt d)
  && list_Qeqb (priceHistory c) (priceHistory d)
  && raws_eqb (rawPaths c) (rawPaths d).

(** The filter [{ _id: { $in: carIds }, seller: vendorId }]. *)
Definition bulkFilter (carIds : list string) (vendorId : string) (c : Car) : bool :=
  existsb (String.eqb (car_id c)) carIds && String.eqb (seller c) vendorId.

(** [Car.updateMany(filter, { $set: updateData })]: every matching document
    gets the [$set] and, from [timestamps: true], [updatedAt]; the result's
    [modifiedCount] counts the matching documents whose content changed.
    [None] is the CastError raised when a value does not cast, before the
    query is sent. *)
Definition updateMany (db : DB) (now : Z) (p : Car -> bool)
  (kvs : list (string * Value)) : option (DB * nat) :=
  if forallb cast_field kvs then
    let upd c := with_updatedAt now (apply_set kvs c) in
    Some (map (fun c => if p c then upd c else c) db,
          length (filter (fun c => p c && negb (car_eqb (upd c) c)) db))
  else None.

(** The route. [updates = None] is a body without [updates]:
    [Object.keys(undefined)] throws and the handler answers 500. *)
Definition bulkUpdateRoute (db : DB) (now : Z) (vendorId : string)
  (carIds : list string) (updates : option (list (string * Value)))
  : Response * DB * list Event :=
  match carIds with
  | [] => (BadRequest400 "Car IDs required", db, [])
  | _ =>
      match updates with
      | None => (ServerError500, db, [])
      | Some upd =>
          let updateData := whitelist upd in
          match updateData with
          | [] => (BadRequest400 "No valid updates provided", db, [])
          | _ =>
              match updateMany db now (bulkFilter carIds vendorId) updateData with
              | None => (ServerError500, db, [])
              | Some (db', modifiedCount) =>
                  (Ok200, db',
                   [ emitToUser vendorId "inventoryUpdate"
                       (PInventoryUpdate modifiedCount updateData) ])
              end
          end
      end
  end.

(** *** Aggregation stages *)

(** A BSON value a [$match] compares: an ObjectId or a string. *)
Inductive BsonId := BObjectId (hex : string) | BString (s : string).

Definition bson_eqb (a b : BsonId) : bool :=
  match a, b with
  | BObjectId x, BObjectId y => String.eqb x y
  | BString x, BString y => String.eqb x y
  | _, _ => false
  end.

(** [{ $match: { seller: vendorId } }] in [Car.aggregate]: the schema types
    [seller] as an ObjectId, so it is stored as one, while [vendorId] is
    [req.user.id], the string [id] virtual of the authenticated user
    document. Mongoose does not cast aggregation pipelines, and in BSON an
    ObjectId never equals a string. *)
Definition aggSellerMatch (vendorId : string) (c : Car) : bool :=
  bson_eqb (BObjectId (seller c)) (BString vendorId).

(** *** Pricing insights ([GET /api/vendors/recommendations]) *)

(** The [$lookup] sub-pipeline's [$match]: same make and model, year within
    two of the listing's, status active. Nothing excludes the vendor's own
    listings, nor the listing itself. *)
Definition comparable (c x : Car) : bool :=
  String.eqb (make x) (make c) && String.eqb (model x) (model c)
  && (year c - 2 <=? year x) && (year x <=? year c + 2)
  && String.eqb (status x) "active".

Fixpoint sumQ (l : list Q) : Q :=
  match l with
  | [] => 0%Q
  | x :: r => (x + sumQ r)%Q
  end.

(** The [$group] with [avgMarketPrice: { $avg: '$price' }]; an empty
    sub-pipeline result gives no group and [marketPrice] is missing. *)
Definition avgMarketPrice (db : DB) (c : Car) : option Q :=
  match filter (comparable c) db with
  | [] => None
  | xs => Some (sumQ (map price xs) / inject_Z (Z.of_nat (length xs)))%Q
  end.

Record Insight := mkInsight { ins_car : Car; marketPrice : Q; priceDiff : Q }.

(** The first [$match] of the pipeline, [{ seller: vendorId, status:
    'active' }]. *)
Definition vendorActive (db : DB) (vendorId : string) : list Car :=
  filter (fun c => aggSellerMatch vendorId c && String.eqb (status c) "active") db.

(** [$lookup], [$addFields] and the threshold [$match] for one listing. *)
Definition insightOf (db : DB) (c : Car) : list Insight :=
  match avgMarketPrice db c with
  | None => []
  | Some m =>
      let d := (price c - m)%Q in
      if qltb 5000 d || qltb d (-3000) then [mkInsight c m d] else []
  end.

(** The pipeline, ending with [$project] and [$limit: 5]. *)
Definition pricingInsights (db : DB) (vendorId : string) : list Insight :=
  firstn 5 (flat_map (insightOf db) (vendorActive db vendorId)).

Inductive Suggestion := ReducePriceBy (amount : Q) | IncreasePriceBy (amount : Q).

Record PricingRec := mkPricingRec {
  pr_insight : Insight; suggestion : Suggestion; pr_priority : Priority }.

Definition pricingRecommendations (db : DB) (vendorId : string) : list PricingRec :=
  map (fun i =>
         mkPricingRec i
           (if qltb 0 (priceDiff i) then ReducePriceBy (Qabs (priceDiff i))
            else IncreasePriceBy (Qabs (priceDiff i)))
           (if qltb 10000 (Qabs (priceDiff i)) then PHigh else PMedium))
      (pricingInsights db vendorId).

(** *** Dashboard ([GET /api/vendors/dashboard]) *)

Record Group := mkGroup {
  g_id : string; g_count : Z; g_totalValue : Q; g_totalViews : Z;
  g_totalInquiries : Z }.

Fixpoint sumZ (l : list Z) : Z :=
  match l with
  | [] => 0
  | x :: r => x + sumZ r
  end.

Definition groupOf (cars : list Car) (s : string) : Group :=
  let xs := filter (fun c => String.eqb (status c) s) cars in
  mkGroup s (Z.of_nat (length xs)) (sumQ (map price xs)) (sumZ (map views xs))
    (sumZ (map inquiries xs)).

(** The overview aggregation: [$match: { seller: vendorId }] then
    [$group] by [status], one group per distinct status (MongoDB gives no
    order to the groups). *)
Definition vendorCars (db : DB) (vendorId : string) : list Car :=
  filter (aggSellerMatch vendorId) db.

Definition groupsOf (cars : list Car) : list Group :=
  map (groupOf cars) (nodup string_dec (map status cars)).

Definition overview (db : DB) (vendorId : string) : list Group :=
  groupsOf (vendorCars db vendorId).

Record Stats := mkStats {
  st_active : Z; st_sold : Z; st_pending : Z; st_inactive : Z;
  st_totalValue : Q; st_avgPrice : Q; st_totalViews : Z; st_totalInquiries : Z }.

Definition stats0 : Stats := mkStats 0 0 0 0 0 0 0 0.

(** One iteration of [overview.forEach]: [stats[item._id] = item.count] and
    the three running sums. A status outside the four schema values would
    add a property of its own; the model has no place for it. *)
Definition statsStep (st : Stats) (g : Group) : Stats :=
  let '(a, so, pe, ia) :=
    if String.eqb (g_id g) "active" then (g_count g, st_sold st, st_pending st, st_inactive st)
    else if String.eqb (g_id g) "sold" then (st_active st, g_count g, st_pending st, st_inactive st)
    else if String.eqb (g_id g) "pending" then (st_active st, st_sold st, g_count g, st_inactive st)
    else if String.eqb (g_id g) "inactive" then (st_active st, st_sold st, st_pending st, g_count g)
    else (st_active st, st_sold st, st_pending st, st_inactive st) in
  mkStats a so pe ia (st_totalValue st + g_totalValue g)%Q (st_avgPrice st)
    (st_totalViews st + g_totalViews g) (st_totalInquiries st + g_totalInquiries g).

(** The [forEach] over the groups and the totals computed after it. *)
Definition statsOf (groups : list Group) : Stats :=
  let st := fold_left statsStep groups stats0 in
  let totalCars := st_active st + st_sold st + st_pending st + st_inactive st in
  mkStats (st_active st) (st_sold st) (st_pending st) (st_inactive st)
    (st_totalValue st)
    (if totalCars >? 0 then (st_totalValue st / inject_Z totalCars)%Q else 0%Q)
    (st_totalViews st) (st_totalInquiries st).

Definition dashboardStats (db : DB) (vendorId : string) : Stats :=
  statsOf (overview db vendorId).

(** [insights.conversionRate], computed in binary64. *)
Definition conversionRate (st : Stats) : string :=
  if st_totalInquiries st >? 0
  then dblToFixed1 (dmul (ddiv (dbl_of_Z (st_sold st)) (dbl_of_Z (st_totalInquiries st)))
                      (dbl_of_Z 100))
  else "0".

Definition dashboardConversionRate (db : DB) (vendorId : string) : string :=
  conversionRate (dashboardStats db vendorId).

(** ** Further listing routes and services *)

(** *** Text rendering and parsing *)

(** A JavaScript number written by [${n}] in a template literal, for the
    integers the messages interpolate. *)
Definition z_string (n : Z) : string :=
  if n <? 0 then ("-" ++ nat_string (- n))%string else nat_string n.

(** [parseFloat] on the strings [toFixed] produces: [Infinity], or digits,
    an optional point and digits, at least one digit in all, read as the
    nearest binary64 number; leading blanks and exponents are not
    modelled. *)
Definition parseUnsigned (s : string) : JSNum :=
  if String.prefix "Infinity" s then JInf false
  else
    let '(i, ki, rest) := read_digits s 0 0 in
    let '(f, kf) :=
      match rest with
      | String a r =>
          if Ascii.eqb a "."%char
          then let '(f, kf, _) := read_digits r 0 0 in (f, kf)
          else (0, O)
      | EmptyString => (0, O)
      end in
    if (Nat.eqb ki 0 && Nat.eqb kf 0)%bool then JNaN
    else roundQ (inject_Z i + inject_Z f / inject_Z (10 ^ Z.of_nat kf))%Q.

Definition js_neg (x : JSNum) : JSNum :=
  match x with
  | JFin q => JFin (- q)%Q
  | JInf b => JInf (negb b)
  | JNaN => JNaN
  end.

Definition parseFloat (s : string) : JSNum :=
  match s with
  | String a r =>
      if Ascii.eqb a "-"%char then js_neg (parseUnsigned r)
      else if Ascii.eqb a "+"%char then parseUnsigned r
      else parseUnsigned s
  | EmptyString => JNaN
  end.

(** [Math.abs(x) > t]: true for the infinities, false for NaN. *)
Definition js_abs_gt (t : Q) (x : JSNum) : bool :=
  match x with
  | JFin q => qltb t (Qabs q)
  | JInf _ => true
  | JNaN => false
  end.

(** *** Socket.io rooms (src/socket.ts) *)

(** [String.prototype.toLowerCase] on ASCII letters. *)
Definition lower_ascii (a : ascii) : ascii :=
  let n := nat_of_ascii a in
  if (Nat.leb 65 n && Nat.leb n 90)%bool then ascii_of_nat (n + 32) else a.

Fixpoint toLowerCase (s : string) : string :=
  match s with
  | EmptyString => EmptyString
  | String a s' => String (lower_ascii a) (toLowerCase s')
  end.

(** The room names built by the emit helpers and by the [joinLocation] and
    [joinInterests] handlers. *)
Definition locationRoom (city state : string) : string :=
  toLowerCase (city ++ "_" ++ state).

Definition makeRoom (make_ : string) : string := "make_" ++ toLowerCase make_.

Definition userRoom (uid : string) : string := "user_" ++ uid.

(** The room an event is sent to; [None] is the broadcast [io.emit]. *)
Definition roomOf (t : Topic) : option string :=
  match t with
  | TLocation c s => Some (locationRoom c s)
  | TMake m => Some (makeRoom m)
  | TUser u => Some (userRoom u)
  | TAll => None
  end.

(** The rooms a socket joins on [joinInterests]. *)
Definition joinInterests (makes bodyTypes : list string) : list string :=
  (map makeRoom makes
   ++ map (fun b => String.append "bodyType_" (toLowerCase b)) bodyTypes)%list.

(** Whether a socket in [rooms] receives an event on topic [t]. *)
Definition receives (rooms : list string) (t : Topic) : bool :=
  match roomOf t with
  | None => true
  | Some r => existsb (String.eqb r) rooms
  end.

(** *** Events of the further services *)

Inductive Notice :=
| NCarDeleted (carId message : string)
| NSimilarCars (viewedMake viewedModel : string) (viewedYear : Z)
    (similarCars : list Car) (message : string)
| NInventoryAlert (alertType : string) (count days : Z) (message : string)
    (priority : Priority)
| NPricingAlert (carId : string) (car : Car) (competitorAvg priceDiff : Q)
    (percentDiff message : string) (priority : Priority).

Record NoticeEvent := mkNotice {
  nt_topic : Topic; nt_name : string; nt_data : Notice }.

(** *** Viewing and deleting a listing (src/routes/upload.ts) *)

(** [{ $inc: { views: 1 } }] through [findByIdAndUpdate]; the schema's
    [timestamps] option also sets [updatedAt]. *)
Definition incViews (now : Z) (c : Car) : Car :=
  {| car_id := car_id c; make := make c; model := model c; year := year c;
     price := price c; location := location c; seller := seller c;
     status := status c; views := views c + 1; inquiries := inquiries c;
     featured := featured c; urgent := urgent c; listedAt := listedAt c;
     lastUpdated := lastUpdated c; updatedAt := now; soldAt := soldAt c;
     priceHistory := priceHistory c;
     rawPaths := rawPaths c |}.

(** [findByIdAndDelete]: the first document with id [k] is removed. *)
Fixpoint removeById (k : string) (db : DB) : DB :=
  match db with
  | [] => []
  | c :: rest => if String.eqb (car_id c) k then rest else c :: removeById k rest
  end.

(** [.sort({ key: -1 })], stable: documents with equal keys keep their
    natural order. *)
Fixpoint insertByDesc (key : Car -> Z) (c : Car) (l : list Car) : list Car :=
  match l with
  | [] => [c]
  | x :: r => if key x <=? key c then c :: x :: r else x :: insertByDesc key c r
  end.

Definition sortByDesc (key : Car -> Z) (l : list Car) : list Car :=
  fold_right (insertByDesc key) [] l.

(** The order [.sort({ key: -1 })] produces. *)
Definition descBy (key : Car -> Z) (a b : Car) : Prop := key b <= key a.

Definition inPriceRange (lo hi p : Q) : bool := Qle_bool lo p && Qle_bool p hi.

Section BodyType.

(** [bodyType] is a schema path the [Car] record does not carry; the code
    reading it is parameterised by its value on each stored document, named
    by the document's id (the updates below never touch it). *)
Variable bodyType : string -> string.

(** The [$or] filter of [SearchService.getSimilarCars]. *)
Definition similarMatch (carId : string) (car x : Car) : bool :=
  negb (String.eqb (car_id x) carId) && String.eqb (status x) "active"
  && ((String.eqb (make x) (make car) && String.eqb (model x) (model car))
      || (String.eqb (make x) (make car) && String.eqb (bodyType (car_id x)) (bodyType (car_id car))
          && inPriceRange (price car * (7 # 10)) (price car * (13 # 10)) (price x))
      || (String.eqb (bodyType (car_id x)) (bodyType (car_id car))
          && inPriceRange (price car * (8 # 10)) (price car * (12 # 10)) (price x))).

Definition getSimilarCars (db : DB) (carId : string) (limit : nat) : list Car :=
  match findById db carId with
  | None => []
  | Some car => firstn limit (sortByDesc listedAt (filter (similarMatch carId car) db))
  end.

(** [GET /api/cars/:id]: the listing as read before the increment, and the
    similar listings read after it. *)
Definition viewCarRoute (db : DB) (now : Z) (carId : string)
  : Response * option (Car * list Car) * DB :=
  match findById db carId with
  | None => (NotFound404, None, db)
  | Some car =>
      let db1 := updateById carId (incViews now) db in
      (Ok200, Some (car, getSimilarCars db1 carId 4), db1)
  end.

(** [NotificationService.notifySimilarCars]. *)
Definition notifySimilarCars (db : DB) (userId : string) (viewedCar : Car)
  : list NoticeEvent :=
  let similar :=
    firstn 3 (filter (fun x =>
                negb (String.eqb (car_id x) (car_id viewedCar))
                && String.eqb (make x) (make viewedCar)
                && String.eqb (bodyType (car_id x)) (bodyType (car_id viewedCar))
                && String.eqb (status x) "active"
                && inPriceRange (price viewedCar * (8 # 10))
                                (price viewedCar * (12 # 10)) (price x)) db) in
  match similar with
  | [] => []
  | _ =>
      [ mkNotice (TUser userId) "similarCars"
          (NSimilarCars (make viewedCar) (model viewedCar) (year viewedCar) similar
             ("Found " ++ z_string (Z.of_nat (length similar))
              ++ " similar cars you might like")) ]
  end.

End BodyType.

(** [DELETE /api/cars/:id]. *)
Definition deleteCarRoute (db : DB) (carId userId : string)
  : Response * DB * list NoticeEvent :=
  match findById db carId with
  | None => (NotFound404, db, [])
  | Some car =>
      if negb (String.eqb (seller car) userId) then (Forbidden403, db, [])
      else
        (Ok200, removeById carId db,
         [ mkNotice TAll "carDeleted"
             (NCarDeleted (car_id car)
                (z_string (year car) ++ " " ++ make car ++ " " ++ model car
                 ++ " listing removed")) ])
  end.

(** *** Image upload ([POST /api/upload/images]) *)

Definition mockUrl (index : nat) : string :=
  "https://via.placeholder.com/800x600/1B3F79/FFFFFF?text=Car+Image+"
  ++ z_string (Z.of_nat index + 1).

(** The outcome of one Cloudinary upload: the [secure_url] of the result,
    possibly missing, or an error that rejects [Promise.all]. *)
Inductive UploadResult := UploadOk (secure_url : option string) | UploadError.

Definition upload_failed (r : UploadResult) : bool :=
  match r with UploadError => true | UploadOk _ => false end.

(** [urls.filter(url => url)]: a missing or empty URL is dropped. *)
Definition truthy_urls (rs : list UploadResult) : list string :=
  flat_map (fun r => match r with
                     | UploadOk (Some u) => if String.eqb u "" then [] else [u]
                     | _ => []
                     end) rs.

(** [configured] is whether the three Cloudinary variables are set. *)
Definition uploadImagesRoute {F : Type} (configured : bool)
  (upload : F -> UploadResult) (files : list F) : Response * list string :=
  match files with
  | [] => (BadRequest400 "No images provided", [])
  | _ =>
      if negb configured then (Ok200, map mockUrl (seq 0 (length files)))
      else
        let results := map upload files in
        if existsb upload_failed results then (ServerError500, [])
        else (Ok200, truthy_urls results)
  end.

(** *** Pagination ([GET /api/cars], [GET /api/vendors/inventory],
    [GET /api/vendors/leads]) *)

(** [.skip(n)]: MongoDB rejects a negative [n]. *)
Definition mongoSkip {A : Type} (n : Z) (l : list A) : option (list A) :=
  if n <? 0 then None else Some (skipn (Z.to_nat n) l).

(** [.limit(n)]: 0 is no limit, a negative [n] limits to [|n|]. *)
Definition mongoLimit {A : Type} (n : Z) (l : list A) : list A :=
  if n =? 0 then l else firstn (Z.to_nat (Z.abs n)) l.

(** [Math.ceil(total / limit)]. *)
Definition pagesOf (total limit : Z) : JSNum :=
  if limit =? 0 then (if total =? 0 then JNaN else JInf (total <? 0))
  else JFin (inject_Z (Qceiling (inject_Z total / inject_Z limit))).

Record Pagination := mkPagination {
  pg_page : Z; pg_limit : Z; pg_total : Z; pg_pages : JSNum }.

(** The page [page] of the sorted query result [results] and the
    [pagination] object; [None] is the error answered with 500. *)
Definition paginatedResponse {A : Type} (results : list A) (page limit : Z)
  : option (list A * Pagination) :=
  match mongoSkip ((page - 1) * limit) results with
  | None => None
  | Some rest =>
      let total := Z.of_nat (length results) in
      Some (mongoLimit limit rest, mkPagination page limit total (pagesOf total limit))
  end.

Definition pageNumbers (pages : Z) : list Z :=
  map (fun i => Z.of_nat i + 1) (seq 0 (Z.to_nat pages)).

(** *** Vendor notifications (src/services/vendorNotificationService.ts) *)

(** [notifyInventoryAlert] with the [count], [days] and [category] of its
    [data] argument. *)
Definition notifyInventoryAlert (vendorId alertType : string) (count days : Z)
  (category : string) : NoticeEvent :=
  let '(message, priority) :=
    if String.eqb alertType "low_inventory" then
      (("Low inventory alert: Only " ++ z_string count ++ " active listings remaining")%string, PHigh)
    else if String.eqb alertType "stale_listings" then
      ((z_string count ++ " listings have been active for over " ++ z_string days
        ++ " days")%string, PMedium)
    else if String.eqb alertType "price_review" then
      ((z_string count ++ " cars may need price adjustment")%string, PMedium)
    else if String.eqb alertType "market_opportunity" then
      (("High demand detected for " ++ category)%string, PLow)
    else (""%string, PMedium) in
  mkNotice (TUser vendorId) "inventoryAlert"
    (NInventoryAlert alertType count days message priority).

(** The weekly stale-inventory check of [schedulePeriodicNotifications]:
    active listings listed at least 30 days ago with at most 20 views,
    grouped by seller, one alert per group. *)
Definition isStale (now : Z) (c : Car) : bool :=
  String.eqb (status c) "active" && (listedAt c <=? now - 30 * msPerDay)
  && (views c <=? 20).

Definition staleInventoryAlerts (db : DB) (now : Z) : list NoticeEvent :=
  let stale := filter (isStale now) db in
  map (fun s => notifyInventoryAlert s "stale_listings"
                  (Z.of_nat (length (filter (fun c => String.eqb (seller c) s) stale)))
                  30 "undefined")
      (nodup string_dec (map seller stale)).

(** [percentDiff = ((priceDiff / avgPrice) * 100).toFixed(1)] in binary64:
    [priceDiff] is the exact difference of the price and the average, which
    the program's subtraction rounds to [dbl_of_Q priceDiff]; a zero
    average gives an infinite or NaN quotient, printed as such. *)
Definition percentDiffStr (priceDiff avgPrice : Q) : string :=
  if Qeq_bool avgPrice 0 then
    (if qltb 0 priceDiff then "Infinity"
     else if qltb priceDiff 0 then "-Infinity" else "NaN")
  else dblToFixed1 (dmul (ddiv (dbl_of_Q priceDiff) (dbl_of_Q avgPrice)) (dbl_of_Z 100)).

(** [notifyCompetitorPricing] with [competitorData.avgPrice]. The price and
    the average are binary64 numbers, so the exact difference has the sign
    of the rounded one the code tests. *)
Definition notifyCompetitorPricing (db : DB) (vendorId carId : string)
  (avgPrice : Q) : list NoticeEvent :=
  match findById db carId with
  | None => []
  | Some car =>
      let priceDiff := (price car - avgPrice)%Q in
      let percentDiff := percentDiffStr priceDiff avgPrice in
      let carText := (z_string (year car) ++ " " ++ make car ++ " " ++ model car)%string in
      let '(message, priority) :=
        if qltb 0 priceDiff then
          (("Your " ++ carText ++ " is priced " ++ percentDiff
            ++ "% above market average")%string,
           if js_abs_gt 15 (parseFloat percentDiff) then PHigh else PMedium)
        else
          (("Your " ++ carText ++ " is competitively priced at " ++ percentDiff
            ++ "% below market")%string, PLow) in
      [ mkNotice (TUser vendorId) "pricingAlert"
          (NPricingAlert carId car avgPrice priceDiff percentDiff message priority) ]
  end.

(** ** Concrete listings used by the examples below *)

Definition austin : Location := mkLocation "Austin" "TX".

Definition camry100 : Car := newCar "c1" "v1" "Toyota" "Camry" 2020 100 austin 0.

(** A listing with 18 views and one inquiry (the lead score 5.6 of the API
    documentation's example). *)
Definition camryViewed : Car :=
  mkCar "c2" "Toyota" "Camry" 2019 18000 austin "v1" "active" 18 1 false false
    0 0 0 None [18000%Q] [].

Definition camryVendor : Car := newCar "a" "v" "Toyota" "Camry" 2020 35000 austin 0.
Definition camryOther : Car := newCar "b" "w" "Toyota" "Camry" 2021 28000 austin 0.
Definition pricingDB : DB := [camryVendor; camryOther].

(** A sold listing with 4 inquiries, next to an active one without any, both
    of seller [v1]. *)
Definition camrySold : Car :=
  mkCar "s1" "Toyota" "Camry" 2018 15000 austin "v1" "sold" 40 4 false false
    0 86400000 86400000 (Some 86400000) [15000%Q] [].
Definition dashDB : DB := [camrySold; camry100].

(** A bulk update whose values Mongoose casts: the string ["true"] to
    [true], the string ["250"] to 250, the number 5 to the string ["5"],
    and [null] stored as such; [views] is not whitelisted. *)
Definition lenientUpdates : list (string * Value) :=
  [("featured", VStr "true"); ("price", VStr "250"); ("status", VNum 5);
   ("urgent", VNull); ("views", VNum 0)].

(** The mean of the claim's comparables: active listings of the same make and
    model within two model years, the vendor's own listings excluded. *)
Definition marketMeanExcludingVendor (db : DB) (vendorId : string) (c : Car)
  : option Q :=
  match filter (fun x => comparable c x && negb (String.eqb (seller x) vendorId)) db with
  | [] => None
  | xs => Some (sumQ (map price xs) / inject_Z (Z.of_nat (length xs)))%Q
  end.

(** The listing state of the spec's invariant. *)
Definition soldInvariant (db : DB) : Prop :=
  forall c, In c db -> status c = "sold" ->
            exists t, soldAt c = Some t /\ listedAt c <= t.

Definition isMilestone (e : Event) : bool :=
  String.eqb (ev_name e) "performanceMilestone".

(** The number of positions at which a listing changed. *)
Definition changedCount (before after : DB) : nat :=
  length (filter (fun p => negb (car_eqb (snd p) (fst p))) (combine before after)).

(** [c'] agrees with [c] outside [status], [featured], [urgent], [price],
    their [Raw] entries and the timestamp [updatedAt]; each of the four
    either kept its value or holds the cast of a value given for that key
    in [u], and each [Raw] entry was there before or is the [null] or the
    non-finite number a value given for its key in [u] casts to. *)
Record writtenFrom (u : list (string * Value)) (c c' : Car) : Prop := {
  wf_car_id : car_id c' = car_id c;
  wf_make : make c' = make c;
  wf_model : model c' = model c;
  wf_year : year c' = year c;
  wf_location : location c' = location c;
  wf_seller : seller c' = seller c;
  wf_views : views c' = views c;
  wf_inquiries : inquiries c' = inquiries c;
  wf_listedAt : listedAt c' = listedAt c;
  wf_lastUpdated : lastUpdated c' = lastUpdated c;
  wf_soldAt : soldAt c' = soldAt c;
  wf_priceHistory : priceHistory c' = priceHistory c;
  wf_status : status c' = status c
              \/ exists v, In ("status", v) u /\ castString v = Some (Some (status c'));
  wf_featured : featured c' = featured c
                \/ exists v, In ("featured", v) u /\ castBoolean v = Some (Some (featured c'));
  wf_urgent : urgent c' = urgent c
              \/ exists v, In ("urgent", v) u /\ castBoolean v = Some (Some (urgent c'));
  wf_price : price c' = price c
             \/ exists v, In ("price", v) u /\ castNumber v = Some (Some (JFin (price c')));
  wf_raw_other : forall k r, ~ In k validUpdates ->
                 (In (k, r) (rawPaths c') <-> In (k, r) (rawPaths c));
  wf_raw_from : forall k r, In (k, r) (rawPaths c') ->
                In (k, r) (rawPaths c) \/ exists v, In (k, v) u /\ castRaw k v = Some r
}.

(** * Properties *)

(** ** Lookups *)

Lemma findById_id db k c : findById db k = Some c -> car_id c = k.
Proof.
  unfold findById; intro H.
  apply find_some in H as [_ H]; now apply String.eqb_eq.
Qed.

Lemma findById_updateById k f db :
  (forall c, car_id (f c) = car_id c) ->
  findById (updateById k f db) k = option_map f (findById db k).
Proof.
  intro Hf; unfold findById; induction db as [|c rest IH]; simpl; [reflexivity|].
  destruct (String.eqb (car_id c) k) eqn:E; simpl.
  - now rewrite Hf, E.
  - now rewrite E.
Qed.

Lemma map_soldAt_updateById k f db :
  (forall c, soldAt (f c) = soldAt c) ->
  map soldAt (updateById k f db) = map soldAt db.
Proof.
  intro Hf; induction db as [|c rest IH]; simpl; [reflexivity|].
  destruct (String.eqb (car_id c) k); simpl; now rewrite ?Hf, ?IH.
Qed.

(** ** Price alerts *)

Lemma qltb_false_of_eq x y : (x == y)%Q -> qltb x y = false.
Proof.
  intro E; unfold qltb; apply negb_false_iff, Qle_bool_iff.
  rewrite E; apply Qle_refl.
Qed.

Example price_change_examples :
  length (updateCarPriceEvents [camry100] "c1" (Some 94%Q)) = 2%nat
  /\ updateCarPriceEvents [camry100] "c1" (Some 97%Q) = [].
Proof. split; reflexivity. Qed.

(** C1. A price update to exactly 95% of the stored price, a drop of
    exactly 5%, publishes no price alert: the code tests [priceChange < -5]. *)
Theorem price_drop_of_exactly_five_percent_not_alerted db k car :
  findById db k = Some car -> (0 < price car)%Q ->
  updateCarPriceEvents db k (Some (price car * (95 # 100))%Q) = [].
Proof.
  intros Hf Hp; unfold updateCarPriceEvents; rewrite Hf.
  destruct (_ && _); [|reflexivity].
  unfold notifyPriceChange; rewrite (findById_id _ _ _ Hf), Hf.
  rewrite qltb_false_of_eq; [reflexivity|].
  field; intro E; rewrite E in Hp; discriminate.
Qed.

Lemma price_drop_of_exactly_five_percent_not_alerted_witness :
  findById [camry100] "c1" = Some camry100 /\ (0 < price camry100)%Q
  /\ updateCarPriceEvents [camry100] "c1" (Some (price camry100 * (95 # 100))%Q) = [].
Proof.
  split; [reflexivity|]; split; [vm_compute; reflexivity|].
  apply (price_drop_of_exactly_five_percent_not_alerted [camry100] "c1" camry100);
    [reflexivity | vm_compute; reflexivity].
Defined.

(** ** Inquiry milestones *)

(** C2. After an inquiry on an existing listing, the route sends exactly one
    performance-milestone event, to the seller, when the count goes from 4
    to 5, and none for any other count. *)
Theorem inquiry_milestone_exactly_at_five db now k name car :
  findById db k = Some car ->
  filter isMilestone (snd (inquiryRoute db now k name)) =
    if inquiries car =? 4 then
      [emitToUser (seller car) "performanceMilestone"
         (PMilestone k (incInquiries now car) "multiple_inquiries" "inquiries" PHigh)]
    else [].
Proof.
  intro Hf; pose proof (findById_id _ _ _ Hf) as Hk; subst k.
  unfold inquiryRoute; rewrite Hf; simpl.
  unfold notifyInquiry, notifyNewInquiry.
  rewrite findById_updateById by reflexivity; rewrite Hf; simpl.
  replace (inquiries car + 1 =? 5) with (inquiries car =? 4)
    by (destruct (Z.eqb_spec (inquiries car) 4), (Z.eqb_spec (inquiries car + 1) 5);
        reflexivity || lia).
  destruct (inquiries car =? 4); [|reflexivity].
  unfold notifyPerformanceMilestone.
  rewrite findById_updateById by reflexivity; rewrite Hf; reflexivity.
Qed.

Lemma inquiry_milestone_exactly_at_five_witness :
  findById [camry100] "c1" = Some camry100
  /\ filter isMilestone (snd (inquiryRoute [camry100] 0 "c1" "ann")) = [].
Proof.
  split; [reflexivity|].
  apply (inquiry_milestone_exactly_at_five [camry100] 0 "c1" "ann" camry100); reflexivity.
Defined.

(** ** Absent listings in the fan-out services *)

(** C9. When the listing is absent, the price-change, inquiry and milestone
    notifications return without publishing anything. *)
Theorem fanout_absent_listing_publishes_nothing db k :
  findById db k = None ->
  forall oldPrice newPrice name vendorId milestone,
    notifyPriceChange db k oldPrice newPrice = []
    /\ notifyInquiry db k name = []
    /\ notifyNewInquiry db vendorId k name = []
    /\ notifyPerformanceMilestone db vendorId k milestone = [].
Proof.
  intros H *; unfold notifyPriceChange, notifyInquiry, notifyNewInquiry,
    notifyPerformanceMilestone; rewrite H; repeat split.
Qed.

Lemma fanout_absent_listing_publishes_nothing_witness :
  findById [camry100] "zz" = None
  /\ notifyPriceChange [camry100] "zz" 100 50 = []
  /\ notifyInquiry [camry100] "zz" "ann" = []
  /\ notifyNewInquiry [camry100] "v1" "zz" "ann" = []
  /\ notifyPerformanceMilestone [camry100] "v1" "zz" "multiple_inquiries" = [].
Proof.
  split; [reflexivity|].
  apply (fanout_absent_listing_publishes_nothing [camry100] "zz"); reflexivity.
Defined.

(** ** The sold-listing invariant *)

(** C3 (counterexample). A stored active listing without [soldAt] (a
    document of the collection, which [POST /api/cars] cannot have stored)
    satisfies the invariant; marking it sold through [PATCH /status] by its
    seller answers 200 and reaches a state where a sold listing has no
    [soldAt]. *)
Lemma sold_listing_without_soldAt :
  let db1 := [camry100] in
  let r := patchStatusRoute db1 86400000 "c1" "v1" "sold" in
  soldInvariant db1 /\ fst r = Ok200 /\ ~ soldInvariant (snd r).
Proof.
  intros db1 r; split; [|split; [reflexivity|]].
  - intros c [<-|[]] Hs; discriminate Hs.
  - intro H.
    destruct (H (with_status "sold" 86400000 camry100))
      as [t [Ht _]]; [left; reflexivity | reflexivity | discriminate].
Qed.

(** C3 (amended). [POST /api/cars] never stores a listing: it answers 400
    or 500 and leaves the collection as it was; [PATCH /status] changes
    nothing in an empty collection. So from an empty collection these
    operations reach no listing, and the invariant holds there only for
    want of listings. [PATCH /status] leaves every listing's [soldAt] as it
    was, whatever the new status; so when the seller marks a stored listing
    without [soldAt] as sold, the request succeeds and the collection then
    holds a sold listing with no [soldAt]. *)
Theorem status_update_preserves_soldAt :
  ((forall db images,
      snd (createCarRoute db images) = db
      /\ fst (createCarRoute db images) <> Created201)
   /\ (forall now k userId st, snd (patchStatusRoute [] now k userId st) = []))
  /\ (forall db now k userId st,
        map soldAt (snd (patchStatusRoute db now k userId st)) = map soldAt db)
  /\ (forall db now k c,
        findById db k = Some c -> soldAt c = None ->
        fst (patchStatusRoute db now k (seller c) "sold") = Ok200
        /\ exists c', In c' (snd (patchStatusRoute db now k (seller c) "sold"))
                      /\ status c' = "sold" /\ soldAt c' = None).
Proof.
  split; [|split].
  - split; [|reflexivity].
    intros db images; unfold createCarRoute; destruct images; split;
      try reflexivity; discriminate.
  - intros; unfold patchStatusRoute.
    destruct (findById db k); [|reflexivity].
    destruct (negb _); [reflexivity|]; destruct (negb _); [reflexivity|].
    apply map_soldAt_updateById; reflexivity.
  - intros db now k c Hf Hs; unfold patchStatusRoute; rewrite Hf, String.eqb_refl.
    cbn [negb existsb validStatuses String.eqb]; split; [reflexivity|].
    exists (with_status "sold" now c); split; [|split; [reflexivity | exact Hs]].
    assert (Hu : findById (updateById k (with_status "sold" now) db) k
                 = Some (with_status "sold" now c))
      by (rewrite findById_updateById, Hf; reflexivity).
    unfold findById in Hu; apply find_some in Hu; exact (proj1 Hu).
Qed.

(** The last part at the listing of the counterexample. *)
Lemma status_update_preserves_soldAt_witness :
  (findById [camry100] "c1" = Some camry100 /\ soldAt camry100 = None)
  /\ fst (patchStatusRoute [camry100] 7 "c1" (seller camry100) "sold") = Ok200
  /\ exists c', In c' (snd (patchStatusRoute [camry100] 7 "c1" (seller camry100) "sold"))
                /\ status c' = "sold" /\ soldAt c' = None.
Proof.
  split; [split; reflexivity|].
  apply (proj2 (proj2 status_update_preserves_soldAt) [camry100] 7 "c1" camry100);
    reflexivity.
Defined.

(** ** Lead urgency *)

(** C4. The urgency of a lead is medium exactly for 14 < daysListed <= 30;
    a listing 14 days old is classified low. *)
Theorem urgency_boundary_fourteen_is_low :
  (forall d, urgencyScore d = "medium" <-> 14 < d <= 30)
  /\ urgencyScore 31 = "high" /\ urgencyScore 20 = "medium"
  /\ urgencyScore 5 = "low" /\ urgencyScore 30 = "medium"
  /\ urgencyScore 14 = "low"
  /\ urgency (leadOf (14 * msPerDay) camry100) = "low".
Proof.
  split; [|repeat split].
  intro d; unfold urgencyScore; rewrite !Z.gtb_ltb.
  destruct (Z.ltb_spec 30 d) as [H1|H1]; destruct (Z.ltb_spec 14 d) as [H2|H2];
    split; intro Hm; try discriminate; try reflexivity; lia.
Qed.

(** ** Lead score *)



(** ** Bulk update *)

Lemma list_Qeqb_refl l : list_Qeqb l l = true.
Proof. induction l; simpl; [reflexivity|]; now rewrite Qeq_bool_refl, IHl. Qed.

Lemma opt_Zeqb_refl o : opt_Zeqb o o = true.
Proof. destruct o; simpl; [apply Z.eqb_refl | reflexivity]. Qed.

Lemma raw_entry_eqb_refl p : raw_entry_eqb p p = true.
Proof.
  destruct p as [k [|x]]; unfold raw_entry_eqb; cbn [fst snd];
    rewrite String.eqb_refl; [reflexivity|].
  destruct x; cbn; [apply Qeq_bool_refl | apply eqb_reflx | reflexivity].
Qed.

Lemma raws_eqb_refl l : raws_eqb l l = true.
Proof.
  unfold raws_eqb; apply andb_true_intro; split; apply forallb_forall;
    intros p Hp; apply existsb_exists; exists p; split;
    [exact Hp | apply raw_entry_eqb_refl | exact Hp | apply raw_entry_eqb_refl].
Qed.

Lemma car_eqb_refl c : car_eqb c c = true.
Proof.
  unfold car_eqb.
  now rewrite !String.eqb_refl, !Z.eqb_refl, Qeq_bool_refl, !eqb_reflx,
    opt_Zeqb_refl, list_Qeqb_refl, raws_eqb_refl.
Qed.

Lemma changedCount_map (p : Car -> bool) (g : Car -> Car) db :
  changedCount db (map (fun c => if p c then g c else c) db)
  = length (filter (fun c => p c && negb (car_eqb (g c) c)) db).
Proof.
  unfold changedCount; induction db as [|c rest IH]; simpl; [reflexivity|].
  destruct (p c); simpl.
  - destruct (car_eqb (g c) c); simpl; [exact IH | f_equal; exact IH].
  - rewrite car_eqb_refl; exact IH.
Qed.

Lemma filter_idem {A} (f : A -> bool) l : filter f (filter f l) = filter f l.
Proof.
  induction l as [|x rest IH]; simpl; [reflexivity|].
  destruct (f x) eqn:E; simpl; [rewrite E; f_equal|]; exact IH.
Qed.

Lemma whitelist_idem u : whitelist (whitelist u) = whitelist u.
Proof. apply filter_idem. Qed.

Lemma in_whitelist u kv : In kv (whitelist u) -> In kv u /\ In (fst kv) validUpdates.
Proof.
  unfold whitelist; rewrite filter_In; intros [H E]; split; [exact H|].
  apply existsb_exists in E as [k [Hk Ek]].
  apply String.eqb_eq in Ek; now rewrite Ek.
Qed.

Lemma writtenFrom_refl u c : writtenFrom u c c.
Proof.
  constructor; intros; solve [reflexivity | left; reflexivity | left; assumption].
Qed.

Lemma In_clearRaw k k' r l : In (k', r) (clearRaw k l) <-> In (k', r) l /\ k' <> k.
Proof.
  unfold clearRaw; rewrite filter_In; cbn [fst].
  rewrite negb_true_iff, String.eqb_neq; reflexivity.
Qed.

Lemma In_setRaw k r0 k' r l :
  In (k', r) (setRaw k r0 l) <-> (In (k', r) l /\ k' <> k) \/ (k' = k /\ r = r0).
Proof.
  unfold setRaw; rewrite in_app_iff, In_clearRaw; cbn [In]; split.
  - intros [H|[H|[]]]; [left; exact H | right; injection H as -> ->; split; reflexivity].
  - intros [H|[-> ->]]; [left; exact H | right; left; reflexivity].
Qed.

Section RawEntries.
Variables (u : list (string * Value)) (c : Car) (k : string) (l : list (string * Raw)).
Hypothesis Hk : In k validUpdates.

Lemma raw_other_clear :
  (forall k' r, ~ In k' validUpdates -> (In (k', r) l <-> In (k', r) (rawPaths c))) ->
  forall k' r, ~ In k' validUpdates ->
  (In (k', r) (clearRaw k l) <-> In (k', r) (rawPaths c)).
Proof.
  intros H k' r Hk'; rewrite In_clearRaw, <- (H k' r Hk').
  assert (k' <> k) by (intro E; subst; contradiction).
  tauto.
Qed.

Lemma raw_other_set r0 :
  (forall k' r, ~ In k' validUpdates -> (In (k', r) l <-> In (k', r) (rawPaths c))) ->
  forall k' r, ~ In k' validUpdates ->
  (In (k', r) (setRaw k r0 l) <-> In (k', r) (rawPaths c)).
Proof.
  intros H k' r Hk'; rewrite In_setRaw, <- (H k' r Hk').
  assert (k' <> k) by (intro E; subst; contradiction).
  split; [intros [[H1 _]|[E _]]; [exact H1 | contradiction] | intro H1; left; split; assumption].
Qed.

Lemma raw_from_clear :
  (forall k' r, In (k', r) l ->
     In (k', r) (rawPaths c) \/ exists v, In (k', v) u /\ castRaw k' v = Some r) ->
  forall k' r, In (k', r) (clearRaw k l) ->
     In (k', r) (rawPaths c) \/ exists v, In (k', v) u /\ castRaw k' v = Some r.
Proof.
  intros H k' r Hin; apply In_clearRaw in Hin as [Hin _]; exact (H k' r Hin).
Qed.

Lemma raw_from_set r0 v :
  In (k, v) u -> castRaw k v = Some r0 ->
  (forall k' r, In (k', r) l ->
     In (k', r) (rawPaths c) \/ exists v, In (k', v) u /\ castRaw k' v = Some r) ->
  forall k' r, In (k', r) (setRaw k r0 l) ->
     In (k', r) (rawPaths c) \/ exists v, In (k', v) u /\ castRaw k' v = Some r.
Proof.
  intros Hv Hc H k' r Hin; apply In_setRaw in Hin as [[Hin _]|[-> ->]].
  - exact (H k' r Hin).
  - right; exists v; split; assumption.
Qed.

End RawEntries.

Ltac finish_written Hin E :=
  first
    [ assumption
    | right; eexists; split; [exact Hin | exact E]
    | apply raw_other_clear; [unfold validUpdates; simpl; intuition | assumption]
    | apply raw_other_set; [unfold validUpdates; simpl; intuition | assumption]
    | apply raw_from_clear; assumption
    | apply (raw_from_set _ _ _ _ _ _ Hin);
        [unfold castRaw, castSet; cbn [fst snd]; rewrite E; reflexivity | assumption] ].

Lemma with_field_writtenFrom u k v c c1 :
  In (k, v) u -> In k validUpdates -> writtenFrom u c c1 ->
  writtenFrom u c (with_field k v c1).
Proof.
  intros Hin Hk Hw; unfold with_field, castSet; cbn [fst snd].
  destruct Hw as [Hid Hmk Hmd Hyr Hloc Hsel Hvw Hinq Hlst Hlu Hsa Hph Hst Hft Hur Hpr Hro Hrf].
  destruct Hk as [<-|[<-|[<-|[<-|[]]]]].
  - destruct (castString v) as [[s'|]|] eqn:E; cbn [option_map applySetter];
      [ | | constructor; assumption ];
      constructor; cbn [set_bulk_fields car_id make model year location seller views
        inquiries listedAt lastUpdated soldAt priceHistory status featured urgent price
        rawPaths]; finish_written Hin E.
  - destruct (castBoolean v) as [[b|]|] eqn:E; cbn [option_map applySetter];
      [ | | constructor; assumption ];
      constructor; cbn [set_bulk_fields car_id make model year location seller views
        inquiries listedAt lastUpdated soldAt priceHistory status featured urgent price
        rawPaths]; finish_written Hin E.
  - destruct (castBoolean v) as [[b|]|] eqn:E; cbn [option_map applySetter];
      [ | | constructor; assumption ];
      constructor; cbn [set_bulk_fields car_id make model year location seller views
        inquiries listedAt lastUpdated soldAt priceHistory status featured urgent price
        rawPaths]; finish_written Hin E.
  - destruct (castNumber v) as [[[q|b|]|]|] eqn:E; cbn [option_map applySetter];
      [ | | | | constructor; assumption ];
      constructor; cbn [set_bulk_fields car_id make model year location seller views
        inquiries listedAt lastUpdated soldAt priceHistory status featured urgent price
        rawPaths]; finish_written Hin E.
Qed.

Lemma apply_set_writtenFrom u kvs :
  forall c c1,
    (forall kv, In kv kvs -> In kv u /\ In (fst kv) validUpdates) ->
    writtenFrom u c c1 -> writtenFrom u c (apply_set kvs c1).
Proof.
  induction kvs as [|[k v] rest IH]; intros c c1 Hkvs Hw; simpl; [exact Hw|].
  apply IH; [intros kv Hkv; apply Hkvs; right; exact Hkv|].
  destruct (Hkvs (k, v) (or_introl eq_refl)) as [Hin Hk]; simpl in Hk.
  apply with_field_writtenFrom; assumption.
Qed.

Lemma Forall2_map_self (R : Car -> Car -> Prop) (g : Car -> Car) db :
  (forall c, In c db -> R c (g c)) -> Forall2 R db (map g db).
Proof.
  induction db as [|c rest IH]; intro H; simpl; constructor.
  - apply H; left; reflexivity.
  - apply IH; intros; apply H; right; assumption.
Qed.

Lemma Forall2_self (R : Car -> Car -> Prop) db :
  (forall c, R c c) -> Forall2 R db db.
Proof. intro H; induction db; constructor; auto. Qed.

(** C6. A bulk update leaves every listing of another seller unchanged, and
    the only event it may emit goes to the vendor's topic with the number of
    listings whose content changed and the whitelisted fields. *)
Theorem bulk_update_frame_and_event db now vendorId carIds updates r db' evs :
  bulkUpdateRoute db now vendorId carIds updates = (r, db', evs) ->
  (forall i c, nth_error db i = Some c -> seller c <> vendorId ->
               nth_error db' i = Some c)
  /\ ((evs = [] /\ db' = db)
      \/ exists u, updates = Some u
                   /\ evs = [emitToUser vendorId "inventoryUpdate"
                               (PInventoryUpdate (changedCount db db') (whitelist u))]).
Proof.
  intro H; unfold bulkUpdateRoute in H.
  destruct carIds as [|id ids]; [injection H as <- <- <-; auto|].
  destruct updates as [u|]; [|injection H as <- <- <-; auto].
  destruct (whitelist u) as [|kv rest] eqn:W; [injection H as <- <- <-; auto|].
  destruct (updateMany _ _ _ _) as [[db1 m]|] eqn:U; [|injection H as <- <- <-; auto].
  injection H as <- <- <-; unfold updateMany in U.
  destruct (forallb cast_field _); [|discriminate].
  injection U as <- <-; split.
  - intros i c Hi Hs; rewrite nth_error_map, Hi; simpl; unfold bulkFilter.
    apply String.eqb_neq in Hs; now rewrite Hs, andb_false_r.
  - right; exists u; split; [reflexivity|].
    now rewrite changedCount_map, W.
Qed.

Lemma bulk_update_frame_and_event_witness :
  bulkUpdateRoute [camry100; camryViewed] 5 "v1" ["c1"] (Some [("featured", VBool true)])
    = (Ok200, [with_updatedAt 5 (apply_set [("featured", VBool true)] camry100); camryViewed],
       [emitToUser "v1" "inventoryUpdate" (PInventoryUpdate 1 [("featured", VBool true)])])
  /\ ((forall i c, nth_error [camry100; camryViewed] i = Some c -> seller c <> "v1" ->
          nth_error [with_updatedAt 5 (apply_set [("featured", VBool true)] camry100);
                     camryViewed] i = Some c)
      /\ (([emitToUser "v1" "inventoryUpdate" (PInventoryUpdate 1 [("featured", VBool true)])]
             = [] /\ [with_updatedAt 5 (apply_set [("featured", VBool true)] camry100);
                       camryViewed] = [camry100; camryViewed])
          \/ exists u, Some [("featured", VBool true)] = Some u
              /\ [emitToUser "v1" "inventoryUpdate" (PInventoryUpdate 1 [("featured", VBool true)])]
                 = [emitToUser "v1" "inventoryUpdate"
                      (PInventoryUpdate
                         (changedCount [camry100; camryViewed]
                            [with_updatedAt 5 (apply_set [("featured", VBool true)] camry100);
                             camryViewed]) (whitelist u))])).
Proof.
  split; [reflexivity|].
  apply (bulk_update_frame_and_event [camry100; camryViewed] 5 "v1" ["c1"]
           (Some [("featured", VBool true)]) Ok200); reflexivity.
Defined.

(** C10. Keys outside [status], [featured], [urgent] and [price] are
    discarded: the route behaves as on the whitelisted part of [updates];
    without any whitelisted key it answers 400 and changes nothing; and every
    listing afterwards differs from before only in those four fields and in
    the [updatedAt] timestamp. Each of the four that changed holds Mongoose's
    cast of the value [updates] gives for it, and a [null] or a non-finite
    price it stores is a [Raw] entry of that path taken from [updates]; the
    [Raw] entries of all other paths are unchanged. *)
Theorem bulk_update_whitelist_only :
  (forall db now vendorId carIds u,
      bulkUpdateRoute db now vendorId carIds (Some u)
      = bulkUpdateRoute db now vendorId carIds (Some (whitelist u)))
  /\ (forall db now vendorId carIds u,
        whitelist u = [] ->
        exists msg, bulkUpdateRoute db now vendorId carIds (Some u)
                    = (BadRequest400 msg, db, []))
  /\ (forall db now vendorId carIds u r db' evs,
        bulkUpdateRoute db now vendorId carIds (Some u) = (r, db', evs) ->
        Forall2 (writtenFrom u) db db').
Proof.
  split; [|split].
  - intros; unfold bulkUpdateRoute; now rewrite whitelist_idem.
  - intros db now vendorId carIds u W; unfold bulkUpdateRoute.
    destruct carIds; [eexists; reflexivity|]; rewrite W; eexists; reflexivity.
  - intros db now vendorId carIds u r db' evs H; unfold bulkUpdateRoute in H.
    destruct carIds as [|id ids];
      [injection H as <- <- <-; apply Forall2_self, writtenFrom_refl|].
    destruct (whitelist u) as [|kv rest] eqn:W;
      [injection H as <- <- <-; apply Forall2_self, writtenFrom_refl|].
    destruct (updateMany _ _ _ _) as [[db1 m]|] eqn:U;
      [|injection H as <- <- <-; apply Forall2_self, writtenFrom_refl].
    injection H as <- <- <-; unfold updateMany in U.
    destruct (forallb cast_field _); [|discriminate].
    injection U as <- <-; apply Forall2_map_self; intros c _.
    destruct (bulkFilter _ _ c); [|apply writtenFrom_refl].
    assert (Hw : writtenFrom u c (apply_set (kv :: rest) c)).
    { apply apply_set_writtenFrom; [|apply writtenFrom_refl].
      intros kv' Hkv'; apply in_whitelist; rewrite W; exact Hkv'. }
    destruct Hw; constructor; assumption.
Qed.

Lemma bulk_update_whitelist_only_witness :
  (whitelist [("views", VNum 1000)] = []
   /\ exists msg, bulkUpdateRoute [camry100] 5 "v1" ["c1"] (Some [("views", VNum 1000)])
                  = (BadRequest400 msg, [camry100], []))
  /\ (exists db' evs,
        bulkUpdateRoute [camry100] 5 "v1" ["c1"] (Some lenientUpdates) = (Ok200, db', evs)
        /\ map (fun c => (status c, featured c, urgent c, price c, rawPaths c)) db'
           = [("5", true, false, 250%Q, [("urgent", RNull)])]
        /\ Forall2 (writtenFrom lenientUpdates) [camry100] db').
Proof.
  split; [split; [reflexivity|] | do 2 eexists; split; [reflexivity | split; [reflexivity|]]].
  - apply (proj1 (proj2 bulk_update_whitelist_only)); reflexivity.
  - eapply (proj2 (proj2 bulk_update_whitelist_only) [camry100] 5 "v1" ["c1"]
      lenientUpdates); reflexivity.
Defined.

(** ** Pricing recommendations *)

Lemma in_firstn {A} n (l : list A) x : In x (firstn n l) -> In x l.
Proof.
  intro H; rewrite <- (firstn_skipn n l); apply in_or_app; left; exact H.
Qed.

Lemma vendorActive_nil db vendorId : vendorActive db vendorId = [].
Proof.
  unfold vendorActive, aggSellerMatch; induction db as [|c db IH]; [reflexivity | exact IH].
Qed.

Lemma vendorCars_nil db vendorId : vendorCars db vendorId = [].
Proof.
  unfold vendorCars, aggSellerMatch; induction db as [|c db IH]; [reflexivity | exact IH].
Qed.

(** C7. The pricing pipeline's first [$match] selects no listing, so the
    recommendations are always empty; in particular a vendor's active
    listing at 35000 whose comparable market, the vendor's listings
    excluded, has mean 28000 (a difference of 7000, above 5000) gets no
    recommendation. *)
Theorem pricing_recommendations_never_emitted :
  (forall db vendorId,
      vendorActive db vendorId = [] /\ pricingRecommendations db vendorId = [])
  /\ (In camryVendor pricingDB /\ seller camryVendor = "v"
      /\ status camryVendor = "active"
      /\ marketMeanExcludingVendor pricingDB "v" camryVendor = Some 28000%Q
      /\ qltb 5000 (price camryVendor - 28000) = true
      /\ pricingRecommendations pricingDB "v" = []).
Proof.
  assert (H : forall db vendorId, pricingRecommendations db vendorId = []).
  { intros db vendorId; unfold pricingRecommendations, pricingInsights.
    rewrite vendorActive_nil; reflexivity. }
  split.
  - intros db vendorId; split; [apply vendorActive_nil | apply H].
  - split; [left; reflexivity|].
    repeat split; try reflexivity; apply H.
Qed.

(** ** Dashboard conversion rate *)

Lemma statsStep_sold st g :
  st_sold (statsStep st g) = if String.eqb (g_id g) "sold" then g_count g else st_sold st.
Proof.
  unfold statsStep.
  destruct (String.eqb_spec (g_id g) "active") as [E|E];
    [rewrite E; reflexivity|].
  destruct (String.eqb (g_id g) "sold"); [reflexivity|].
  destruct (String.eqb (g_id g) "pending"); [reflexivity|].
  destruct (String.eqb (g_id g) "inactive"); reflexivity.
Qed.

Lemma statsStep_totalInquiries st g :
  st_totalInquiries (statsStep st g) = st_totalInquiries st + g_totalInquiries g.
Proof.
  unfold statsStep.
  destruct (String.eqb (g_id g) "active"); [reflexivity|].
  destruct (String.eqb (g_id g) "sold"); [reflexivity|].
  destruct (String.eqb (g_id g) "pending"); [reflexivity|].
  destruct (String.eqb (g_id g) "inactive"); reflexivity.
Qed.

Lemma fold_stats cars K :
  NoDup K ->
  forall st,
    st_sold (fold_left statsStep (map (groupOf cars) K) st)
      = (if in_dec string_dec "sold" K then g_count (groupOf cars "sold") else st_sold st)
    /\ st_totalInquiries (fold_left statsStep (map (groupOf cars) K) st)
      = st_totalInquiries st + sumZ (map (fun k => g_totalInquiries (groupOf cars k)) K).
Proof.
  induction K as [|k K IH]; intros Hnd st.
  { simpl; split; [reflexivity|lia]. }
  apply NoDup_cons_iff in Hnd as [Hk Hnd].
  cbn [map fold_left].
  destruct (IH Hnd (statsStep st (groupOf cars k))) as [Hs Hi].
  rewrite Hs, Hi, statsStep_sold, statsStep_totalInquiries.
  split; [|cbn [map sumZ]; simpl g_totalInquiries; lia].
  simpl g_id.
  destruct (in_dec string_dec "sold" (k :: K)) as [I'|N'];
    destruct (in_dec string_dec "sold" K) as [I|N];
    destruct (String.eqb_spec k "sold") as [E|Ne]; subst; try reflexivity;
    exfalso; first [ apply N'; right; exact I
                   | apply N'; left; reflexivity
                   | destruct I' as [E'|I'']; [congruence | contradiction] ].
Qed.

Lemma sumZ_zero {A} (l : list A) : sumZ (map (fun _ => 0) l) = 0.
Proof. induction l; simpl; lia. Qed.

Lemma sumZ_plus {A} (f g : A -> Z) l :
  sumZ (map (fun k => f k + g k) l) = sumZ (map f l) + sumZ (map g l).
Proof. induction l; simpl; lia. Qed.

Lemma sumZ_indicator_absent x a K :
  ~ In x K -> sumZ (map (fun k => if String.eqb x k then a else 0) K) = 0.
Proof.
  induction K as [|k K IH]; intro H; simpl; [reflexivity|].
  destruct (String.eqb_spec x k) as [->|_]; [exfalso; apply H; left; reflexivity|].
  rewrite IH; [reflexivity|]; intro; apply H; right; assumption.
Qed.

Lemma sumZ_indicator x a K :
  NoDup K -> In x K -> sumZ (map (fun k => if String.eqb x k then a else 0) K) = a.
Proof.
  induction K as [|k K IH]; intros Hnd Hin; [destruct Hin|].
  apply NoDup_cons_iff in Hnd as [Hk Hnd]; simpl.
  destruct (String.eqb_spec x k) as [->|Ne].
  - rewrite sumZ_indicator_absent by exact Hk; lia.
  - destruct Hin as [E|Hin]; [congruence|]. rewrite IH by assumption; lia.
Qed.

Lemma group_inquiries_total cars K :
  NoDup K -> incl (map status cars) K ->
  sumZ (map (fun k => g_totalInquiries (groupOf cars k)) K) = sumZ (map inquiries cars).
Proof.
  intro Hnd; induction cars as [|c cars IH]; intro Hincl; simpl.
  - apply sumZ_zero.
  - unfold groupOf in *; simpl in *.
    transitivity (sumZ (map (fun k => (if String.eqb (status c) k then inquiries c else 0)
                                      + sumZ (map inquiries
                                                (filter (fun x => String.eqb (status x) k) cars))) K)).
    + f_equal; apply map_ext; intro k.
      destruct (String.eqb (status c) k); simpl; lia.
    + rewrite sumZ_plus, sumZ_indicator, IH; [reflexivity | | assumption |].
      * intros s Hs; apply Hincl; right; exact Hs.
      * apply Hincl; left; reflexivity.
Qed.

Lemma no_sold_group cars K :
  incl (map status cars) K -> ~ In "sold" K ->
  filter (fun c => String.eqb (status c) "sold") cars = [].
Proof.
  induction cars as [|c cars IH]; intros Hincl HK; simpl; [reflexivity|].
  destruct (String.eqb_spec (status c) "sold") as [E|_].
  - exfalso; apply HK, Hincl; left; exact E.
  - apply IH; [intros s Hs; apply Hincl; right; exact Hs | exact HK].
Qed.

(** Over the groups of any list of listings, the [forEach] and the
    [conversionRate] expression give [sold / totalInquiries * 100] with
    one decimal when the listings have inquiries, and "0" otherwise. *)
Lemma conversionRate_groupsOf cars :
  let sold := Z.of_nat (length (filter (fun c => String.eqb (status c) "sold") cars)) in
  let totalInquiries := sumZ (map inquiries cars) in
  conversionRate (statsOf (groupsOf cars))
  = if totalInquiries >? 0
    then dblToFixed1 (dmul (ddiv (dbl_of_Z sold) (dbl_of_Z totalInquiries)) (dbl_of_Z 100))
    else "0".
Proof.
  intros sold totalInquiries.
  set (K := nodup string_dec (map status cars)).
  assert (Hnd : NoDup K) by apply NoDup_nodup.
  assert (Hincl : incl (map status cars) K) by (intros s Hs; apply nodup_In; exact Hs).
  destruct (fold_stats cars K Hnd stats0) as [Hs Hi].
  unfold conversionRate, statsOf, groupsOf.
  fold K; simpl st_sold; simpl st_totalInquiries.
  rewrite Hs, Hi, group_inquiries_total by assumption.
  replace (st_totalInquiries stats0 + sumZ (map inquiries cars)) with totalInquiries
    by (simpl; reflexivity).
  replace (if in_dec string_dec "sold" K then g_count (groupOf cars "sold")
           else st_sold stats0) with sold; [reflexivity|].
  destruct (in_dec string_dec "sold" K) as [_|N]; [reflexivity|].
  unfold sold; rewrite (no_sold_group cars K Hincl N); reflexivity.
Qed.

(** C8. The overview's [$match] selects no listing, so every dashboard
    statistic is 0 and the conversion rate is always "0". The formula
    itself is right over the groups it is given, but a vendor with one sold
    listing and 4 inquiries on its listings gets "0", not "25.0". *)
Theorem dashboard_conversionRate_always_zero :
  (forall db vendorId,
      vendorCars db vendorId = [] /\ dashboardStats db vendorId = stats0
      /\ dashboardConversionRate db vendorId = "0")
  /\ (forall cars,
        let sold := Z.of_nat (length (filter (fun c => String.eqb (status c) "sold") cars)) in
        let totalInquiries := sumZ (map inquiries cars) in
        conversionRate (statsOf (groupsOf cars))
        = if totalInquiries >? 0
          then dblToFixed1 (dmul (ddiv (dbl_of_Z sold) (dbl_of_Z totalInquiries))
                              (dbl_of_Z 100))
          else "0")
  /\ (let cars := filter (fun c => String.eqb (seller c) "v1") dashDB in
      Z.of_nat (length (filter (fun c => String.eqb (status c) "sold") cars)) = 1
      /\ sumZ (map inquiries cars) = 4
      /\ conversionRate (statsOf (groupsOf cars)) = "25.0"
      /\ dashboardConversionRate dashDB "v1" = "0").
Proof.
  assert (H : forall db vendorId, dashboardStats db vendorId = stats0).
  { intros db vendorId; unfold dashboardStats, overview.
    rewrite vendorCars_nil; reflexivity. }
  split; [|split].
  - intros db vendorId; split; [apply vendorCars_nil|]; split; [apply H|].
    unfold dashboardConversionRate; rewrite H; reflexivity.
  - intro cars; apply conversionRate_groupsOf.
  - split; [reflexivity|]; split; [reflexivity|]; split; [vm_compute; reflexivity|].
    unfold dashboardConversionRate; rewrite H; reflexivity.
Qed.

(** * Further properties of the routes and services *)

(** ** Number parsing *)

Lemma digit_val_digit_char d : 0 <= d < 10 -> digit_val (digit_char d) = Some d.
Proof.
  intro Hd. unfold digit_val, digit_char.
  rewrite nat_ascii_embedding by lia.
  rewrite Nat2Z.inj_add, Z2Nat.id by lia. change (Z.of_nat 48) with 48.
  destruct (Z.leb_spec 48 (48 + d)), (Z.leb_spec (48 + d) 57);
    [cbv [andb]; f_equal; lia | exfalso; lia ..].
Qed.
Lemma read_digits_digit d s v k : 0 <= d < 10 ->
  read_digits (String (digit_char d) s) v k = read_digits s (10 * v + d) (S k).
Proof. intro Hd. cbn [read_digits]. rewrite digit_val_digit_char by exact Hd. reflexivity. Qed.
Lemma z_digits_S f n acc : z_digits (S f) n acc =
  if n <? 10 then String (digit_char (n mod 10)) acc
  else z_digits f (n / 10) (String (digit_char (n mod 10)) acc).
Proof. reflexivity. Qed.
Lemma read_z_digits f : forall n acc v k,
  0 <= n < 10 ^ Z.of_nat (S f) ->
  exists j, (1 <= j)%nat /\
    read_digits (z_digits (S f) n acc) v k = read_digits acc (v * 10 ^ Z.of_nat j + n) (k + j).
Proof.
  induction f as [|f IH]; intros n acc v k Hn;
    rewrite z_digits_S; destruct (Z.ltb_spec n 10) as [Hlt|Hge].
  - exists 1%nat. split; [lia|].
    rewrite read_digits_digit by (apply Z.mod_pos_bound; lia).
    rewrite Z.mod_small by lia. rewrite Nat.add_1_r.
    replace (v * 10 ^ Z.of_nat 1 + n) with (10 * v + n) by (rewrite Z.pow_1_r; lia). reflexivity.
  - exfalso. change (10 ^ Z.of_nat 1) with 10 in Hn. lia.
  - exists 1%nat. split; [lia|].
    rewrite read_digits_digit by (apply Z.mod_pos_bound; lia).
    rewrite Z.mod_small by lia. rewrite Nat.add_1_r.
    replace (v * 10 ^ Z.of_nat 1 + n) with (10 * v + n) by (rewrite Z.pow_1_r; lia). reflexivity.
  - destruct (IH (n / 10) (String (digit_char (n mod 10)) acc) v k) as [j [Hj E]].
    { split; [apply Z.div_pos; lia|].
      apply Z.div_lt_upper_bound; [lia|].
      rewrite Nat2Z.inj_succ, Z.pow_succ_r in Hn by lia. lia. }
    exists (S j). split; [lia|]. rewrite E.
    rewrite read_digits_digit by (apply Z.mod_pos_bound; lia).
    replace (S (k + j)) with (k + S j)%nat by lia.
    rewrite Nat2Z.inj_succ, Z.pow_succ_r by lia.
    pose proof (Z.div_mod n 10 ltac:(lia)).
    set (P := 10 ^ Z.of_nat j).
    replace (v * (10 * P) + n) with (10 * (v * P + n / 10) + n mod 10) by lia.
    reflexivity.
Qed.

Lemma pos_lt_pow2_size p : Zpos p < 2 ^ Z.of_nat (Pos.size_nat p).
Proof.
  induction p as [p IH|p IH|]; cbn [Pos.size_nat]; try (rewrite Nat2Z.inj_succ, Z.pow_succ_r by lia);
    [rewrite Pos2Z.inj_xI | rewrite Pos2Z.inj_xO | reflexivity]; lia.
Qed.

Lemma nat_string_fuel n : 0 <= n ->
  n < 10 ^ Z.of_nat (S (Pos.size_nat (Z.to_pos (n + 1)))).
Proof.
  intro Hn. pose proof (pos_lt_pow2_size (Z.to_pos (n + 1))) as H.
  rewrite Z2Pos.id in H by lia.
  set (s := Z.of_nat (Pos.size_nat (Z.to_pos (n + 1)))) in *.
  assert (0 <= s) by lia.
  assert (2 ^ s <= 10 ^ s) by (apply Z.pow_le_mono_l; lia).
  rewrite Nat2Z.inj_succ, Z.pow_succ_r by lia. fold s.
  assert (0 < 10 ^ s) by (apply Z.pow_pos_nonneg; lia). lia.
Qed.

Lemma z_digits_app f n acc t :
  (z_digits f n acc ++ t)%string = z_digits f n (acc ++ t)%string.
Proof.
  revert n acc; induction f as [|f IH]; intros n acc; cbn [z_digits]; [reflexivity|].
  destruct (n <? 10); [reflexivity|]. rewrite IH; reflexivity.
Qed.

Lemma read_nat_string n t : 0 <= n ->
  exists j, (1 <= j)%nat /\ read_digits (nat_string n ++ t) 0 0 = read_digits t n j.
Proof.
  intro Hn. unfold nat_string. rewrite z_digits_app. change (EmptyString ++ t)%string with t.
  destruct (read_z_digits _ n t 0 0 (conj Hn (nat_string_fuel n Hn))) as [j [Hj E]].
  exists j. split; [exact Hj|]. rewrite E. f_equal; lia.
Qed.

Lemma z_digits_head f n acc : exists d s, 0 <= d < 10 /\
  z_digits (S f) n acc = String (digit_char d) s.
Proof.
  revert n acc; induction f as [|f IH]; intros n acc; rewrite z_digits_S.
  - destruct (n <? 10); eexists _, _; (split; [apply Z.mod_pos_bound; lia | reflexivity]).
  - destruct (n <? 10).
    + eexists _, _; (split; [apply Z.mod_pos_bound; lia | reflexivity]).
    + apply IH.
Qed.

Lemma digit_char_neq d a : 0 <= d < 10 -> digit_val a = None -> digit_char d <> a.
Proof. intros Hd Ha E. subst a. rewrite digit_val_digit_char in Ha by exact Hd. discriminate. Qed.

Lemma findById_split db k c : findById db k = Some c ->
  exists l1 l2, db = (l1 ++ c :: l2)%list /\ Forall (fun x => car_id x <> k) l1 /\
    car_id c = k /\ (forall f, updateById k f db = (l1 ++ f c :: l2)%list) /\
    removeById k db = (l1 ++ l2)%list.
Proof.
  unfold findById. induction db as [|x r IH]; cbn [find]; [discriminate|].
  destruct (String.eqb (car_id x) k) eqn:E; intro H.
  - injection H as <-. exists [], r. apply String.eqb_eq in E.
    repeat split; cbn [updateById removeById]; try (intros; rewrite ?String.eqb_refl);
      rewrite ?E, ?String.eqb_refl; auto.
  - destruct (IH H) as (l1 & l2 & Hd & Hl1 & Hc & Hu & Hr).
    exists (x :: l1), l2. apply String.eqb_neq in E. subst r.
    repeat split.
    + constructor; assumption.
    + exact Hc.
    + intro f. cbn [updateById]. rewrite (proj2 (String.eqb_neq _ _) E), Hu. reflexivity.
    + cbn [removeById]. rewrite (proj2 (String.eqb_neq _ _) E), Hr. reflexivity.
Qed.

Lemma findById_none_update db k f : findById db k = None -> updateById k f db = db.
Proof.
  unfold findById. induction db as [|x r IH]; cbn [find updateById]; [reflexivity|].
  destruct (String.eqb (car_id x) k); [discriminate|]. intro H. rewrite IH by exact H. reflexivity.
Qed.

Lemma sumZ_app l1 l2 : sumZ (l1 ++ l2)%list = sumZ l1 + sumZ l2.
Proof. induction l1 as [|x r IH]; cbn [sumZ app]; lia. Qed.

(** X1. [GET /api/cars/:id] answers 404 and changes nothing when the listing is absent; otherwise it answers the listing as read before the increment, and only the first document with that id is replaced, by its copy with one more view and a fresh [updatedAt]: the total view count grows by exactly one. *)
Theorem view_route_effect (bodyType : string -> string) db now k :
  match viewCarRoute bodyType db now k with
  | (NotFound404, None, db') => findById db k = None /\ db' = db
  | (Ok200, Some (c, _), db') =>
      exists l1 l2, db = (l1 ++ c :: l2)%list /\ Forall (fun x => car_id x <> k) l1 /\
        car_id c = k /\ db' = (l1 ++ incViews now c :: l2)%list /\
        sumZ (map views db') = sumZ (map views db) + 1
  | _ => False
  end.
Proof.
  unfold viewCarRoute. destruct (findById db k) as [c|] eqn:Hf; [|auto].
  destruct (findById_split db k c Hf) as (l1 & l2 & Hd & Hl1 & Hc & Hu & _).
  exists l1, l2. rewrite Hu. repeat split; try assumption.
  rewrite Hd, !map_app, !sumZ_app. cbn [map sumZ incViews views]. lia.
Qed.

Lemma insertByDesc_In key c l x : In x (insertByDesc key c l) <-> x = c \/ In x l.
Proof.
  induction l as [|y r IH]; cbn [insertByDesc]; [simpl; intuition congruence|].
  destruct (key y <=? key c); simpl; [intuition congruence|]. rewrite IH. intuition congruence.
Qed.

Lemma sortByDesc_In key l x : In x (sortByDesc key l) <-> In x l.
Proof.
  unfold sortByDesc. induction l as [|y r IH]; cbn [fold_right]; [tauto|].
  rewrite insertByDesc_In, IH. simpl. intuition congruence.
Qed.

Lemma insertByDesc_sorted key c l :
  Sorted (descBy key) l -> Sorted (descBy key) (insertByDesc key c l).
Proof.
  induction 1 as [|y r Hs IH Hh]; cbn [insertByDesc]; [repeat constructor|].
  destruct (Z.leb_spec (key y) (key c)) as [Hle|Hgt].
  - constructor; [constructor; assumption | constructor; unfold descBy; lia].
  - constructor; [exact IH|].
    destruct r as [|z r']; cbn [insertByDesc]; [constructor; unfold descBy; lia|].
    destruct (key z <=? key c); constructor; unfold descBy; [lia|].
    inversion Hh; assumption.
Qed.

Lemma sortByDesc_sorted key l : Sorted (descBy key) (sortByDesc key l).
Proof.
  unfold sortByDesc. induction l as [|y r IH]; cbn [fold_right]; [constructor|].
  apply insertByDesc_sorted, IH.
Qed.

Lemma firstn_sorted {A} (R : A -> A -> Prop) n l : Sorted R l -> Sorted R (firstn n l).
Proof.
  revert l; induction n as [|n IH]; intros l H; [constructor|].
  destruct l as [|x r]; [constructor|]. cbn [firstn].
  inversion H as [|? ? Hs Hh]; subst. constructor; [apply IH, Hs|].
  destruct n as [|n]; [constructor|]. destruct r as [|y r]; [constructor|].
  cbn [firstn]. constructor. inversion Hh; assumption.
Qed.

(** X2. The similar listings of [GET /api/cars/:id] are at most 4, newest first, read from the database after the increment, never the listing itself, all active and each sharing the make or the body type of the viewed listing. *)
Theorem view_route_similar (bodyType : string -> string) db now k :
  match viewCarRoute bodyType db now k with
  | (_, Some (c, sim), db') =>
      (length sim <= 4)%nat /\ Sorted (descBy listedAt) sim /\
      Forall (fun x => In x db' /\ car_id x <> k /\ status x = "active" /\
                       (make x = make c \/ bodyType (car_id x) = bodyType (car_id c))) sim
  | _ => True
  end.
Proof.
  unfold viewCarRoute. destruct (findById db k) as [c|] eqn:Hf; [|exact I].
  destruct (findById_split db k c Hf) as (l1 & l2 & Hd & Hl1 & Hc & Hu & _).
  set (db1 := updateById k (incViews now) db).
  assert (Hf1 : findById db1 k = Some (incViews now c)).
  { unfold db1. rewrite findById_updateById by reflexivity. rewrite Hf. reflexivity. }
  unfold getSimilarCars. rewrite Hf1. split; [|split].
  - rewrite length_firstn. lia.
  - apply firstn_sorted, sortByDesc_sorted.
  - apply Forall_forall. intros x Hx. apply in_firstn, sortByDesc_In, filter_In in Hx.
    destruct Hx as [Hx Hm]. split; [exact Hx|].
    unfold similarMatch in Hm. cbn [make model car_id price incViews] in Hm.
    rewrite Hc in Hm.
    apply andb_prop in Hm as [Hm Hor]. apply andb_prop in Hm as [Hid Hst].
    apply negb_true_iff, String.eqb_neq in Hid. apply String.eqb_eq in Hst.
    split; [exact Hid|]. split; [exact Hst|].
    apply orb_prop in Hor as [Hor|Hor]; [apply orb_prop in Hor as [Hor|Hor]|].
    + left. apply andb_prop in Hor as [H _]. apply String.eqb_eq, H.
    + left. apply andb_prop in Hor as [H _]. apply andb_prop in H as [H _]. apply String.eqb_eq, H.
    + right. apply andb_prop in Hor as [H _]. rewrite Hc. apply String.eqb_eq, H.
Qed.

(** X3. [DELETE /api/cars/:id] answers 404 or 403 without touching the database or publishing anything; for the owner it removes the first document with that id, keeps every other document in order, and broadcasts a single [carDeleted] event to every socket. *)
Theorem delete_route_effect db k u :
  match deleteCarRoute db k u with
  | (NotFound404, db', evs) => findById db k = None /\ db' = db /\ evs = []
  | (Forbidden403, db', evs) =>
      exists c, findById db k = Some c /\ seller c <> u /\ db' = db /\ evs = []
  | (Ok200, db', evs) =>
      exists c l1 l2, findById db k = Some c /\ seller c = u /\
        db = (l1 ++ c :: l2)%list /\ Forall (fun x => car_id x <> k) l1 /\
        db' = (l1 ++ l2)%list /\
        map nt_topic evs = [TAll] /\ map nt_name evs = ["carDeleted"]
  | _ => False
  end.
Proof.
  unfold deleteCarRoute. destruct (findById db k) as [c|] eqn:Hf; [|auto].
  destruct (String.eqb (seller c) u) eqn:Hs; cbn [negb].
  - destruct (findById_split db k c Hf) as (l1 & l2 & Hd & Hl1 & Hc & _ & Hr).
    exists c, l1, l2. apply String.eqb_eq in Hs. repeat split; auto.
  - exists c. apply String.eqb_neq in Hs. auto.
Qed.

(** X4. A delete request never removes a listing of a seller other than the requester. *)
Theorem delete_keeps_others_listings db k u x :
  In x db -> seller x <> u -> In x (snd (fst (deleteCarRoute db k u))).
Proof.
  intros Hx Hs. unfold deleteCarRoute. destruct (findById db k) as [c|] eqn:Hf; [|exact Hx].
  destruct (String.eqb (seller c) u) eqn:Hcu; cbn [negb fst snd]; [|exact Hx].
  destruct (findById_split db k c Hf) as (l1 & l2 & Hd & _ & _ & _ & Hr).
  rewrite Hr. subst db. apply in_app_or in Hx. apply in_or_app.
  destruct Hx as [Hx|[Hx|Hx]]; auto.
  subst x. apply String.eqb_eq in Hcu. contradiction.
Qed.

Lemma delete_keeps_others_listings_witness :
  In camryOther pricingDB /\ seller camryOther <> "v" /\
  In camryOther (snd (fst (deleteCarRoute pricingDB "a" "v"))).
Proof.
  split; [right; left; reflexivity|]. split; [intro H; vm_compute in H; discriminate H|].
  apply (delete_keeps_others_listings pricingDB "a" "v" camryOther);
    [right; left; reflexivity | intro H; vm_compute in H; discriminate H].
Defined.

Lemma Forall2_eq_refl {A} (R : A -> A -> Prop) (l : list A) :
  (forall x, R x x) -> Forall2 R l l.
Proof. intro H. induction l; constructor; auto. Qed.

(** X5. [PATCH /api/cars/:id/status] keeps every stored status among the schema's enum values, changes nothing unless it answers 200, and changes at most the requester's listing with the given id, to the given status. *)
Theorem patch_status_effect db now k u st :
  Forall (fun c => In (status c) validStatuses) db ->
  let '(r, db') := patchStatusRoute db now k u st in
  Forall (fun c => In (status c) validStatuses) db' /\ (r = Ok200 \/ db' = db) /\
  Forall2 (fun x y => y = x \/ (car_id x = k /\ seller x = u /\ y = with_status st now x))
    db db'.
Proof.
  intro Hv. unfold patchStatusRoute.
  assert (Hrefl : Forall2 (fun x y => y = x \/ (car_id x = k /\ seller x = u /\
                     y = with_status st now x)) db db)
    by (apply Forall2_eq_refl; auto).
  destruct (findById db k) as [c|] eqn:Hf; [|auto].
  destruct (String.eqb (seller c) u) eqn:Hs; cbn [negb]; [|auto].
  destruct (existsb (String.eqb st) validStatuses) eqn:Hst; cbn [negb]; [|auto].
  destruct (findById_split db k c Hf) as (l1 & l2 & Hd & _ & Hc & Hu & _).
  rewrite Hu. split; [|split; [left; reflexivity|]].
  - subst db. apply Forall_app in Hv as [H1 H2]. inversion H2; subst.
    apply Forall_app. split; [exact H1|]. constructor; [|assumption].
    cbn [status with_status]. apply existsb_exists in Hst as [s' [Hin E]].
    apply String.eqb_eq in E. subst. exact Hin.
  - subst db. apply Forall2_app; [apply Forall2_eq_refl; auto|].
    constructor; [|apply Forall2_eq_refl; auto].
    right. apply String.eqb_eq in Hs. auto.
Qed.

Lemma patch_status_effect_witness :
  Forall (fun c => In (status c) validStatuses) [camry100] /\
  let '(r, db') := patchStatusRoute [camry100] 7 "c1" "v1" "sold" in
  Forall (fun c => In (status c) validStatuses) db' /\ (r = Ok200 \/ db' = [camry100]) /\
  Forall2 (fun x y => y = x \/ (car_id x = "c1" /\ seller x = "v1" /\
                                y = with_status "sold" 7 x)) [camry100] db'.
Proof.
  split; [constructor; [vm_compute; left; reflexivity | constructor]|].
  apply (patch_status_effect [camry100] 7 "c1" "v1" "sold").
  constructor; [vm_compute; left; reflexivity | constructor].
Defined.

(** X6. The bulk update stores any status string on the vendor's listings it names, also one outside the schema's enum: [updateMany] runs no validator. *)
Theorem bulk_update_stores_any_status db now v ids s i c :
  nth_error db i = Some c -> In (car_id c) ids -> seller c = v ->
  exists db' evs,
    bulkUpdateRoute db now v ids (Some [("status", VStr s)]) = (Ok200, db', evs) /\
    option_map status (nth_error db' i) = Some s.
Proof.
  intros Hi Hid Hs. unfold bulkUpdateRoute.
  destruct ids as [|id ids]; [contradiction|].
  change (whitelist [("status", VStr s)]) with [("status", VStr s)].
  unfold updateMany. change (forallb cast_field [("status", VStr s)]) with true. cbv iota.
  eexists _, _. split; [reflexivity|].
  rewrite nth_error_map, Hi. cbn [option_map].
  assert (Hb : bulkFilter (id :: ids) v c = true).
  { unfold bulkFilter. apply andb_true_intro. split.
    - apply existsb_exists. exists (car_id c). split; [exact Hid | apply String.eqb_refl].
    - apply String.eqb_eq, Hs. }
  rewrite Hb. reflexivity.
Qed.

Lemma bulk_update_stores_any_status_witness :
  nth_error [camry100] 0 = Some camry100 /\ In (car_id camry100) ["c1"] /\
  seller camry100 = "v1" /\
  exists db' evs,
    bulkUpdateRoute [camry100] 7 "v1" ["c1"] (Some [("status", VStr "archived")])
      = (Ok200, db', evs) /\
    option_map status (nth_error db' 0) = Some "archived".
Proof.
  split; [reflexivity|]. split; [left; reflexivity|]. split; [reflexivity|].
  apply (bulk_update_stores_any_status [camry100] 7 "v1" ["c1"] "archived" 0 camry100);
    [reflexivity | left; reflexivity | reflexivity].
Defined.

(** X7. Every answer other than 200 of the view, inquiry, delete, status and bulk-update routes leaves the database unchanged and publishes nothing. *)
Theorem route_errors_change_nothing (bodyType : string -> string) db now k u st name v ids upd :
  (fst (fst (viewCarRoute bodyType db now k)) = Ok200 \/
     snd (viewCarRoute bodyType db now k) = db) /\
  (fst (fst (inquiryRoute db now k name)) = Ok200 \/
     (snd (fst (inquiryRoute db now k name)) = db /\ snd (inquiryRoute db now k name) = [])) /\
  (fst (fst (deleteCarRoute db k u)) = Ok200 \/
     (snd (fst (deleteCarRoute db k u)) = db /\ snd (deleteCarRoute db k u) = [])) /\
  (fst (patchStatusRoute db now k u st) = Ok200 \/ snd (patchStatusRoute db now k u st) = db) /\
  (fst (fst (bulkUpdateRoute db now v ids upd)) = Ok200 \/
     (snd (fst (bulkUpdateRoute db now v ids upd)) = db /\
      snd (bulkUpdateRoute db now v ids upd) = [])).
Proof.
  split; [|split; [|split; [|split]]].
  - unfold viewCarRoute. destruct (findById db k); cbn [fst snd]; auto.
  - unfold inquiryRoute. destruct (findById db k); cbn [fst snd]; auto.
  - unfold deleteCarRoute. destruct (findById db k) as [c|]; cbn [fst snd]; auto.
    destruct (negb _); cbn [fst snd]; auto.
  - unfold patchStatusRoute. destruct (findById db k) as [c|]; cbn [fst snd]; auto.
    destruct (negb _); cbn [fst snd]; auto. destruct (negb _); cbn [fst snd]; auto.
  - unfold bulkUpdateRoute. destruct ids; cbn [fst snd]; auto.
    destruct upd as [l|]; cbn [fst snd]; auto.
    destruct (whitelist l); cbn [fst snd]; auto.
    destruct (updateMany _ _ _ _) as [[? ?]|]; cbn [fst snd]; auto.
Qed.

(** X8. An inquiry on an existing listing answers 200, adds one to the total inquiry count, leaves every view count unchanged, and sends the [newInquiry] event to the seller's room twice. *)
Theorem inquiry_route_effect db now k name c :
  findById db k = Some c ->
  let '(r, db', evs) := inquiryRoute db now k name in
  r = Ok200 /\ map views db' = map views db /\
  sumZ (map inquiries db') = sumZ (map inquiries db) + 1 /\
  map ev_topic (filter (fun e => String.eqb (ev_name e) "newInquiry") evs)
    = [TUser (seller c); TUser (seller c)].
Proof.
  intro Hf. unfold inquiryRoute. rewrite Hf.
  destruct (findById_split db k c Hf) as (l1 & l2 & Hd & _ & Hc & Hu & _).
  assert (Hf1 : findById (updateById k (incInquiries now) db) k = Some (incInquiries now c)).
  { rewrite findById_updateById by reflexivity. rewrite Hf. reflexivity. }
  rewrite Hf1. rewrite Hu. split; [reflexivity|]. split; [|split].
  - subst db. rewrite !map_app. reflexivity.
  - subst db. rewrite !map_app, !sumZ_app. cbn [map sumZ incInquiries inquiries]. lia.
  - rewrite <- Hu. unfold notifyInquiry, notifyNewInquiry. rewrite Hc, Hf1.
    destruct (inquiries (incInquiries now c) =? 5).
    + unfold notifyPerformanceMilestone. rewrite Hf1.
      cbn [String.eqb app filter ev_name emitToUser Ascii.eqb Bool.eqb map ev_topic seller incInquiries].
      reflexivity.
    + reflexivity.
Qed.

Lemma inquiry_route_effect_witness :
  findById [camry100; camryViewed] "c1" = Some camry100 /\
  let '(r, db', evs) := inquiryRoute [camry100; camryViewed] 0 "c1" "ann" in
  r = Ok200 /\ map views db' = map views [camry100; camryViewed] /\
  sumZ (map inquiries db') = sumZ (map inquiries [camry100; camryViewed]) + 1 /\
  map ev_topic (filter (fun e => String.eqb (ev_name e) "newInquiry") evs)
    = [TUser (seller camry100); TUser (seller camry100)].
Proof.
  split; [reflexivity|].
  apply (inquiry_route_effect [camry100; camryViewed] 0 "c1" "ann" camry100); reflexivity.
Defined.

Lemma nat_string_inj a b : 0 <= a -> 0 <= b -> nat_string a = nat_string b -> a = b.
Proof.
  intros Ha Hb E.
  destruct (read_nat_string a "" Ha) as [ja [_ Ea]].
  destruct (read_nat_string b "" Hb) as [jb [_ Eb]].
  rewrite E in Ea. rewrite Ea in Eb. cbn [read_digits] in Eb. congruence.
Qed.

Lemma append_cancel_l p x y : (p ++ x = p ++ y)%string -> x = y.
Proof. induction p as [|a p IH]; cbn [String.append]; [auto|]. intro H. injection H. exact IH. Qed.

Lemma mockUrl_inj i j : mockUrl i = mockUrl j -> i = j.
Proof.
  unfold mockUrl, z_string. intro E. apply append_cancel_l in E.
  destruct (Z.ltb_spec (Z.of_nat i + 1) 0); [lia|].
  destruct (Z.ltb_spec (Z.of_nat j + 1) 0); [lia|].
  apply nat_string_inj in E; lia.
Qed.

(** X12. Without Cloudinary configured, the upload route answers 200 with one placeholder URL per file, all distinct. *)
Theorem upload_mock_urls {F : Type} (upload : F -> UploadResult) (files : list F) :
  files <> [] ->
  let '(r, urls) := uploadImagesRoute false upload files in
  r = Ok200 /\ length urls = length files /\ NoDup urls.
Proof.
  intro Hn. unfold uploadImagesRoute. destruct files as [|f fs]; [contradiction|].
  cbn [negb]. split; [reflexivity|]. split.
  - rewrite length_map, length_seq. reflexivity.
  - apply NoDup_map_NoDup_ForallPairs; [|apply seq_NoDup].
    intros i j _ _. apply mockUrl_inj.
Qed.

Lemma upload_mock_urls_witness :
  [0; 1]%nat <> [] /\
  let '(r, urls) := uploadImagesRoute false (fun _ : nat => UploadError) [0; 1]%nat in
  r = Ok200 /\ length urls = length [0; 1]%nat /\ NoDup urls.
Proof.
  split; [discriminate|].
  apply (upload_mock_urls (fun _ : nat => UploadError) [0; 1]%nat); discriminate.
Defined.

Lemma firstn_skipn_add {A} a b (r : list A) :
  (firstn a r ++ firstn b (skipn a r))%list = firstn (a + b) r.
Proof.
  revert r; induction a as [|a IH]; intros r; [reflexivity|].
  destruct r as [|x r]; cbn [firstn skipn app]; [destruct b; reflexivity|].
  rewrite IH. reflexivity.
Qed.

Lemma chunks_firstn {A} (L : nat) (r : list A) m :
  flat_map (fun i => firstn L (skipn (i * L) r)) (seq 0 m) = firstn (m * L) r.
Proof.
  induction m as [|m IH]; [reflexivity|].
  rewrite seq_S, flat_map_app, IH. cbn [flat_map plus]. rewrite app_nil_r.
  rewrite firstn_skipn_add. f_equal. lia.
Qed.

Lemma paginated_page {A} (results : list A) page limit :
  0 < limit -> 1 <= page ->
  paginatedResponse results page limit =
    Some (firstn (Z.to_nat limit) (skipn (Z.to_nat ((page - 1) * limit)) results),
          mkPagination page limit (Z.of_nat (length results))
            (JFin (inject_Z (Qceiling (inject_Z (Z.of_nat (length results)) / inject_Z limit))))).
Proof.
  intros Hl Hp. unfold paginatedResponse, mongoSkip, mongoLimit, pagesOf.
  destruct (Z.ltb_spec ((page - 1) * limit) 0); [nia|].
  destruct (Z.eqb_spec limit 0); [lia|]. rewrite Z.abs_eq by lia. reflexivity.
Qed.

Lemma ceiling_bounds (n L : Z) : 0 < L ->
  n <= Qceiling (inject_Z n / inject_Z L) * L /\
  (Qceiling (inject_Z n / inject_Z L) - 1) * L < n.
Proof.
  intro HL. set (x := (inject_Z n / inject_Z L)%Q).
  assert (HLq : (0 < inject_Z L)%Q) by (change 0%Q with (inject_Z 0); rewrite <- Zlt_Qlt; exact HL).
  assert (Ex : (inject_Z n == x * inject_Z L)%Q) by (unfold x; field; intro H; rewrite H in HLq; discriminate).
  pose proof (Qle_ceiling x) as H1. pose proof (Qceiling_lt x) as H2.
  split.
  - rewrite Zle_Qle, inject_Z_mult, Ex. apply Qmult_le_compat_r; [exact H1 | apply Qlt_le_weak, HLq].
  - rewrite Zlt_Qlt, inject_Z_mult, Ex. unfold Z.sub. rewrite inject_Z_plus, inject_Z_opp.
    apply Qmult_lt_compat_r; [exact HLq|].
    unfold Z.sub in H2. rewrite inject_Z_plus, inject_Z_opp in H2. exact H2.
Qed.

(** X16. With a positive limit, page numbers below 1 are a server error, and the pages 1 to [pagination.pages] are exactly the non-empty pages, each of at most [limit] results, and together they give back the sorted results in order. *)
Theorem pagination_partitions {A : Type} (results : list A) limit :
  0 < limit ->
  exists P, 0 <= P /\
    (forall page, page < 1 -> paginatedResponse results page limit = None) /\
    (forall page, 1 <= page -> exists l pg,
       paginatedResponse results page limit = Some (l, pg) /\
       pg_pages pg = JFin (inject_Z P) /\ (length l <= Z.to_nat limit)%nat /\
       (l = [] <-> P < page)) /\
    flat_map (fun page => match paginatedResponse results page limit with
                          | Some (l, _) => l
                          | None => []
                          end) (pageNumbers P) = results.
Proof.
  intro HL. set (n := Z.of_nat (length results)).
  set (P := Qceiling (inject_Z n / inject_Z limit)).
  destruct (ceiling_bounds n limit HL) as [B1 B2]. fold P in B1, B2.
  assert (HP : 0 <= P) by (unfold n in *; nia).
  exists P. split; [exact HP|]. split; [|split].
  - intros page Hp. unfold paginatedResponse, mongoSkip.
    destruct (Z.ltb_spec ((page - 1) * limit) 0); [reflexivity | nia].
  - intros page Hp. rewrite paginated_page by assumption.
    eexists _, _. split; [reflexivity|]. split; [reflexivity|]. split.
    + rewrite length_firstn. lia.
    + split.
      * intro E. destruct (Z.lt_ge_cases P page) as [H|H]; [exact H|exfalso].
        assert (Hs : (Z.to_nat ((page - 1) * limit) < length results)%nat)
          by (unfold n in B2; nia).
        destruct (skipn (Z.to_nat ((page - 1) * limit)) results) as [|y ys] eqn:Es.
        -- pose proof (f_equal (@length A) Es) as El. rewrite length_skipn in El.
           cbn [length] in El. lia.
        -- destruct (Z.to_nat limit) eqn:El; [lia|]. discriminate E.
      * intro H. rewrite skipn_all2; [destruct (Z.to_nat limit); reflexivity|].
        unfold n in B1. nia.
  - unfold pageNumbers. rewrite flat_map_concat_map, map_map, <- flat_map_concat_map.
    rewrite (flat_map_ext _ (fun i => firstn (Z.to_nat limit) (skipn (i * Z.to_nat limit) results))).
    + rewrite chunks_firstn. apply firstn_all2. unfold n in B1. nia.
    + intro i. rewrite paginated_page by lia. f_equal. f_equal. nia.
Qed.

Lemma pagination_partitions_witness :
  0 < 2 /\
  exists P, 0 <= P /\
    (forall page, page < 1 -> paginatedResponse [1; 2; 3; 4; 5] page 2 = None) /\
    (forall page, 1 <= page -> exists l pg,
       paginatedResponse [1; 2; 3; 4; 5] page 2 = Some (l, pg) /\
       pg_pages pg = JFin (inject_Z P) /\ (length l <= Z.to_nat 2)%nat /\
       (l = [] <-> P < page)) /\
    flat_map (fun page => match paginatedResponse [1; 2; 3; 4; 5] page 2 with
                          | Some (l, _) => l
                          | None => []
                          end) (pageNumbers P) = [1; 2; 3; 4; 5].
Proof.
  split; [lia|].
  apply (pagination_partitions [1; 2; 3; 4; 5] 2); lia.
Defined.

(** X13. With Cloudinary configured, a single failed upload makes the route answer 500 with no URL; otherwise it answers 200 with at most one non-empty URL per file, each the [secure_url] of an upload. *)
Theorem upload_all_or_nothing {F : Type} (upload : F -> UploadResult) (files : list F) :
  files <> [] ->
  let '(r, urls) := uploadImagesRoute true upload files in
  (r = ServerError500 /\ urls = [] /\ exists f, In f files /\ upload f = UploadError) \/
  (r = Ok200 /\ Forall (fun f => upload f <> UploadError) files /\
   (length urls <= length files)%nat /\ ~ In "" urls /\
   forall u, In u urls -> exists f, In f files /\ upload f = UploadOk (Some u)).
Proof.
  intro Hn. unfold uploadImagesRoute. destruct files as [|f0 fs]; [contradiction|].
  set (files := f0 :: fs). cbn [negb].
  destruct (existsb upload_failed (map upload files)) eqn:E.
  - left. split; [reflexivity|]. split; [reflexivity|].
    apply existsb_exists in E as [x [Hx Hf]]. apply in_map_iff in Hx as [f [Hf' Hin]].
    exists f. split; [exact Hin|]. subst x. destruct (upload f); [discriminate|reflexivity].
  - right. split; [reflexivity|].
    assert (Hok : Forall (fun f => upload f <> UploadError) files).
    { apply Forall_forall. intros f Hf He.
      assert (existsb upload_failed (map upload files) = true)
        by (apply existsb_exists; exists (upload f); split; [apply in_map, Hf | rewrite He; reflexivity]).
      congruence. }
    split; [exact Hok|]. clearbody files. clear E Hok.
    induction files as [|f r IH]; cbn [truthy_urls flat_map map length]; [split; [lia|split; [tauto|contradiction]]|].
    destruct IH as [IH1 [IH2 IH3]]. fold (truthy_urls (map upload r)) in *.
    assert (Hcons : forall u, In u (truthy_urls (map upload r)) ->
                    exists g, In g (f :: r) /\ upload g = UploadOk (Some u))
      by (intros u Hu; destruct (IH3 u Hu) as [g [Hg Eg]]; exists g; split; [right; exact Hg | exact Eg]).
    destruct (upload f) as [[u|]|] eqn:Ef.
    + destruct (String.eqb_spec u "") as [Eu|Eu]; cbn [app length].
      * split; [lia|]. split; [exact IH2|exact Hcons].
      * split; [lia|]. split.
        -- intros [H|H]; [congruence | exact (IH2 H)].
        -- intros v [Hv|Hv]; [subst v; exists f; split; [left; reflexivity | exact Ef] | exact (Hcons v Hv)].
    + cbn [app]. split; [lia|]. split; [exact IH2 | exact Hcons].
    + cbn [app]. split; [lia|]. split; [exact IH2 | exact Hcons].
Qed.

Lemma upload_all_or_nothing_witness :
  [0; 1]%nat <> [] /\
  let '(r, urls) := uploadImagesRoute true
                      (fun n : nat => if Nat.eqb n 0 then UploadOk (Some "u") else UploadError)
                      [0; 1]%nat in
  (r = ServerError500 /\ urls = [] /\ exists f, In f [0; 1]%nat /\
     (if Nat.eqb f 0 then UploadOk (Some "u") else UploadError) = UploadError) \/
  (r = Ok200 /\
   Forall (fun f => (if Nat.eqb f 0 then UploadOk (Some "u") else UploadError) <> UploadError)
     [0; 1]%nat /\
   (length urls <= length [0; 1]%nat)%nat /\ ~ In "" urls /\
   forall u, In u urls -> exists f, In f [0; 1]%nat /\
     (if Nat.eqb f 0 then UploadOk (Some "u") else UploadError) = UploadOk (Some u)).
Proof.
  split; [discriminate|].
  apply (upload_all_or_nothing
           (fun n : nat => if Nat.eqb n 0 then UploadOk (Some "u") else UploadError) [0; 1]%nat);
    discriminate.
Defined.

Lemma lower_ascii_not_T a : lower_ascii a <> "T"%char.
Proof.
  unfold lower_ascii. destruct (Nat.leb 65 (nat_of_ascii a) && Nat.leb (nat_of_ascii a) 90)%bool eqn:E.
  - intro H. apply andb_prop in E as [E1 E2]. apply Nat.leb_le in E1, E2.
    apply (f_equal nat_of_ascii) in H. rewrite nat_ascii_embedding in H by lia.
    change (nat_of_ascii "T") with 84%nat in H. lia.
  - intro H. subst a. discriminate E.
Qed.

Lemma toLowerCase_not_bodyType s x : toLowerCase s <> ("bodyType_" ++ x)%string.
Proof.
  intro E.
  destruct s as [|a1 s]; [discriminate|]. destruct s as [|a2 s]; [discriminate|].
  destruct s as [|a3 s]; [discriminate|]. destruct s as [|a4 s]; [discriminate|].
  destruct s as [|a5 s]; [discriminate|].
  cbn [toLowerCase String.append] in E. injection E as _ _ _ _ E5 _.
  exact (lower_ascii_not_T a5 E5).
Qed.

(** X14. A socket that joined the interests of a make receives the make events of every spelling of that make that lower-cases the same. *)
Theorem make_room_ignores_case makes bodyTypes m m' :
  In m' makes -> toLowerCase m' = toLowerCase m ->
  receives (joinInterests makes bodyTypes) (TMake m) = true.
Proof.
  intros Hin Hl. unfold receives, roomOf, joinInterests. apply existsb_exists.
  exists (makeRoom m'). split.
  - apply in_or_app. left. apply in_map, Hin.
  - unfold makeRoom. rewrite Hl. apply String.eqb_refl.
Qed.

Lemma make_room_ignores_case_witness :
  In "Toyota" ["Toyota"] /\ toLowerCase "Toyota" = toLowerCase "TOYOTA" /\
  receives (joinInterests ["Toyota"] ["SUV"]) (TMake "TOYOTA") = true.
Proof.
  split; [left; reflexivity|]. split; [vm_compute; reflexivity|].
  apply (make_room_ignores_case ["Toyota"] ["SUV"] "TOYOTA" "Toyota");
    [left; reflexivity | vm_compute; reflexivity].
Defined.

(** X15. The interest rooms never receive user-targeted events, and a socket that joined only body-type rooms receives only broadcasts: no emit helper targets a [bodyType_] room. *)
Theorem interest_rooms_isolation makes bodyTypes :
  (forall u, receives (joinInterests makes bodyTypes) (TUser u) = false) /\
  (forall t, receives (joinInterests [] bodyTypes) t = true <-> t = TAll).
Proof.
  split.
  - intro u. unfold receives, roomOf, joinInterests, userRoom.
    apply not_true_iff_false. intro H. apply existsb_exists in H as [r [Hr E]].
    apply String.eqb_eq in E. subst r. apply in_app_or in Hr as [Hr|Hr];
      apply in_map_iff in Hr as [x [Hx _]]; [unfold makeRoom in Hx|]; discriminate Hx.
  - intro t. unfold receives, joinInterests. cbn [map app].
    destruct t as [c s|m|u|]; cbn [roomOf]; split; try discriminate; try reflexivity;
      intro H; exfalso; apply existsb_exists in H as [r [Hr E]];
      apply String.eqb_eq in E; subst r; apply in_map_iff in Hr as [b [Hb _]].
    + unfold locationRoom in Hb. symmetry in Hb. exact (toLowerCase_not_bodyType _ _ Hb).
    + unfold makeRoom in Hb. discriminate Hb.
    + unfold userRoom in Hb. discriminate Hb.
Qed.

Lemma seller_counts_total (l : list Car) K :
  NoDup K -> incl (map seller l) K ->
  sumZ (map (fun s => Z.of_nat (length (filter (fun c => String.eqb (seller c) s) l))) K)
    = Z.of_nat (length l).
Proof.
  intro Hnd. induction l as [|c r IH]; intro Hincl.
  - cbn [filter length]. apply sumZ_zero.
  - rewrite (map_ext _ (fun s => (if String.eqb (seller c) s then 1 else 0)
                 + Z.of_nat (length (filter (fun c => String.eqb (seller c) s) r)))).
    + rewrite sumZ_plus, sumZ_indicator, IH; [cbn [length]; lia | ..];
        first [exact Hnd | intros x Hx; apply Hincl; right; exact Hx | apply Hincl; left; reflexivity].
    + intro s. cbn [filter]. destruct (String.eqb (seller c) s); cbn [length]; lia.
Qed.

(** X17. The weekly stale-inventory check sends one [stale_listings] alert, of medium priority and 30 days, to each seller having stale listings and to no one else; each count is positive and the counts add up to the number of stale listings. *)
Theorem stale_alerts_per_seller db now :
  NoDup (map nt_topic (staleInventoryAlerts db now)) /\
  (forall s, In (TUser s) (map nt_topic (staleInventoryAlerts db now)) <->
             exists c, In c db /\ isStale now c = true /\ seller c = s) /\
  Forall (fun e => exists s cnt msg, nt_topic e = TUser s /\ nt_name e = "inventoryAlert" /\
                   1 <= cnt /\ nt_data e = NInventoryAlert "stale_listings" cnt 30 msg PMedium)
    (staleInventoryAlerts db now) /\
  sumZ (map (fun e => match nt_data e with NInventoryAlert _ cnt _ _ _ => cnt | _ => 0 end)
            (staleInventoryAlerts db now))
    = Z.of_nat (length (filter (isStale now) db)).
Proof.
  unfold staleInventoryAlerts. set (stale := filter (isStale now) db).
  set (K := nodup string_dec (map seller stale)).
  assert (Ht : map nt_topic (map (fun s => notifyInventoryAlert s "stale_listings"
             (Z.of_nat (length (filter (fun c => String.eqb (seller c) s) stale))) 30 "undefined") K)
             = map TUser K) by (rewrite map_map; reflexivity).
  rewrite Ht. split; [|split; [|split]].
  - apply NoDup_map_NoDup_ForallPairs; [intros a b _ _ E; injection E; auto|apply NoDup_nodup].
  - intro s. rewrite in_map_iff. split.
    + intros [s' [E Hs]]. injection E as ->. unfold K in Hs. apply nodup_In, in_map_iff in Hs as [c [Ec Hc]].
      unfold stale in Hc. apply filter_In in Hc. exists c. tauto.
    + intros [c [Hc [Hst Ec]]]. exists s. split; [reflexivity|]. unfold K. apply nodup_In, in_map_iff.
      exists c. split; [exact Ec|]. unfold stale. apply filter_In. tauto.
  - apply Forall_map, Forall_forall. intros s Hs.
    exists s, (Z.of_nat (length (filter (fun c => String.eqb (seller c) s) stale))).
    eexists. split; [reflexivity|]. split; [reflexivity|]. split; [|reflexivity].
    unfold K in Hs. apply nodup_In, in_map_iff in Hs as [c [Ec Hc]].
    assert (In c (filter (fun c => String.eqb (seller c) s) stale))
      by (apply filter_In; split; [exact Hc | apply String.eqb_eq, Ec]).
    destruct (filter _ stale); [contradiction | cbn [length]; lia].
  - rewrite map_map. cbn [notifyInventoryAlert nt_data].
    apply seller_counts_total; [apply NoDup_nodup|]. intros x Hx. apply nodup_In, Hx.
Qed.

(** X18. [notifySimilarCars] sends nothing when no other active listing of the same make and body type is priced within 20% of the viewed one; otherwise it sends the user one event with 1 to 3 such listings. *)
Theorem similar_cars_notice (bodyType : string -> string) db u v :
  match notifySimilarCars bodyType db u v with
  | [] => forall x, In x db -> car_id x <> car_id v -> make x = make v ->
            bodyType (car_id x) = bodyType (car_id v) -> status x = "active" ->
            inPriceRange (price v * (8 # 10)) (price v * (12 # 10)) (price x) = false
  | [e] => nt_topic e = TUser u /\ nt_name e = "similarCars" /\
           exists sim msg, nt_data e = NSimilarCars (make v) (model v) (year v) sim msg /\
             sim <> [] /\ (length sim <= 3)%nat /\
             Forall (fun x => In x db /\ car_id x <> car_id v /\ make x = make v /\
                       bodyType (car_id x) = bodyType (car_id v) /\ status x = "active" /\
                       inPriceRange (price v * (8 # 10)) (price v * (12 # 10)) (price x) = true) sim
  | _ => False
  end.
Proof.
  unfold notifySimilarCars.
  set (p := fun x => negb (String.eqb (car_id x) (car_id v)) && String.eqb (make x) (make v)
                && String.eqb (bodyType (car_id x)) (bodyType (car_id v))
                && String.eqb (status x) "active"
                && inPriceRange (price v * (8 # 10)) (price v * (12 # 10)) (price x)).
  destruct (firstn 3 (filter p db)) as [|y ys] eqn:E.
  - intros x Hx Hid Hm Hb Hs. destruct (inPriceRange _ _ (price x)) eqn:Hr; [|reflexivity].
    exfalso. assert (Hp : In x (filter p db)).
    { apply filter_In. split; [exact Hx|]. unfold p.
      rewrite (proj2 (String.eqb_neq _ _) Hid), Hm, Hb, Hs, !String.eqb_refl, Hr. reflexivity. }
    destruct (filter p db); [contradiction | discriminate E].
  - split; [reflexivity|]. split; [reflexivity|]. eexists _, _. split; [reflexivity|].
    split; [discriminate|]. split; [rewrite <- E, length_firstn; lia|].
    rewrite <- E. apply Forall_forall. intros x Hx. apply in_firstn, filter_In in Hx as [Hx Hp].
    unfold p in Hp. apply andb_prop in Hp as [Hp Hr]. apply andb_prop in Hp as [Hp Hs].
    apply andb_prop in Hp as [Hp Hb]. apply andb_prop in Hp as [Hid Hm].
    apply negb_true_iff, String.eqb_neq in Hid.
    apply String.eqb_eq in Hm, Hb, Hs. tauto.
Qed.

(** X11. With a competitor average of 0 the percentage is printed as [Infinity], [-Infinity] or [NaN]; a positive price then always gives a high-priority alert. *)
Theorem competitor_pricing_zero_average db v k c :
  findById db k = Some c ->
  exists msg,
    notifyCompetitorPricing db v k 0 =
      [mkNotice (TUser v) "pricingAlert"
         (NPricingAlert k c 0 (price c - 0)
            (if qltb 0 (price c) then "Infinity"
             else if qltb (price c) 0 then "-Infinity" else "NaN")
            msg (if qltb 0 (price c) then PHigh else PLow))].
Proof.
  intro Hf. unfold notifyCompetitorPricing, percentDiffStr. rewrite Hf.
  change (Qeq_bool 0 0) with true. cbv iota.
  assert (Hd : (price c - 0 == price c)%Q) by ring.
  assert (Eq : forall x y, (x == y)%Q -> qltb 0 x = qltb 0 y /\ qltb x 0 = qltb y 0).
  { intros x y E. unfold qltb. split; f_equal; apply eq_true_iff_eq; rewrite !Qle_bool_iff; rewrite E; tauto. }
  destruct (Eq _ _ Hd) as [E1 E2]. rewrite E1, E2.
  destruct (qltb 0 (price c)).
  - eexists. reflexivity.
  - destruct (qltb (price c) 0); eexists; reflexivity.
Qed.

Lemma competitor_pricing_zero_average_witness :
  findById pricingDB "a" = Some camryVendor /\
  exists msg,
    notifyCompetitorPricing pricingDB "v" "a" 0 =
      [mkNotice (TUser "v") "pricingAlert"
         (NPricingAlert "a" camryVendor 0 (price camryVendor - 0)
            (if qltb 0 (price camryVendor) then "Infinity"
             else if qltb (price camryVendor) 0 then "-Infinity" else "NaN")
            msg (if qltb 0 (price camryVendor) then PHigh else PLow))].
Proof.
  split; [reflexivity|].
  apply (competitor_pricing_zero_average pricingDB "v" "a" camryVendor); reflexivity.
Defined.
